(** * Font installer and glyph-coverage check: a shallow embedding

    This development embeds [scripts/install_fonts.py] and
    [tests/test_fonts.py] as functions over an explicit world (file system,
    upstream response, output streams) and proves the behavioural properties
    of the download / verify / distribute flow.

    Conventions.
    - A path is the list of its components below [REPO_ROOT]; the empty list
      is [REPO_ROOT] itself, which is a directory (it holds [scripts/]).
    - A Python function that performs I/O or may raise is a function
      [world -> result A * world]: effects performed before an exception is
      raised stay in the world.
    - [hashlib.sha256], [unicodedata.name], [json.load] and fontTools are
      library code: they are Section variables, so every theorem holds for
      whatever these functions compute. *)

From stdpp Require Import gmap strings list sorting.
From Stdlib Require Import ZArith NArith.

#[local] Set Warnings "-clear-no-such-hyp".

(** ** Data *)

Abbreviation path := (list string).
Abbreviation bytes := (list Byte.byte).

(** A file carries its content and whether the process may open it; directory
    permissions are not modelled. *)
Inductive node :=
  | File (content : bytes) (accessible : bool)
  | Dir.

Abbreviation filesystem := (gmap (list string) node).

Inductive oserrno := ENOENT | EACCES | EEXIST | ENOTDIR | EISDIR.

(** What [urllib.request.urlopen(request)] followed by [response.read()]
    produces: a [URLError] (with its text), an exception that is not a
    [URLError] (a connection reset while reading), or the body. *)
Inductive upstream_response :=
  | UpstreamURLError (text : string)
  | UpstreamReset
  | UpstreamBody (payload : bytes).

Inductive exn :=
  | RuntimeError (msg : string)
  | URLError (text : string)
  | OSError (errno : oserrno) (filename : path)
  | ConnectionResetError
  | SystemExit (code : Z)
  | AssertionError (msg : list N)
  | AttributeError (msg : string)
  | TypeError (msg : string)
  | JSONDecodeError
  | TTLibError.

Inductive result (A : Type) :=
  | Ok (a : A)
  | Raise (e : exn).
Arguments Ok {A} a.
Arguments Raise {A} e.

(** Ghost log of what the run did: function entries and system-level
    operations, in order. *)
Inductive event :=
  | EvCall (f : string)
  | EvUrlopen
  | EvMkdir (p : path)
  | EvOpenWb (p : path)
  | EvWrite (p : path) (count : nat)
  | EvReplace (src dst : path)
  | EvTTFont (p : path).

(** [snapshots] is ghost state: every file-system state that has been on disk
    since the world was created, oldest first.  A process killed at an
    arbitrary moment leaves one of them behind. *)
Record world := World {
  fs : filesystem;
  upstream : upstream_response;
  stdout : list string;
  stderr : list string;
  trace : list event;
  snapshots : list filesystem
}.

Definition commit (d : filesystem) (w : world) : world :=
  {| fs := d; upstream := upstream w; stdout := stdout w; stderr := stderr w;
     trace := trace w; snapshots := snapshots w ++ [d] |}.

Definition log (e : event) (w : world) : world :=
  {| fs := fs w; upstream := upstream w; stdout := stdout w;
     stderr := stderr w; trace := trace w ++ [e]; snapshots := snapshots w |}.

Definition put_stdout (s : string) (w : world) : world :=
  {| fs := fs w; upstream := upstream w; stdout := stdout w ++ [s];
     stderr := stderr w; trace := trace w; snapshots := snapshots w |}.

Definition put_stderr (s : string) (w : world) : world :=
  {| fs := fs w; upstream := upstream w; stdout := stdout w;
     stderr := stderr w ++ [s]; trace := trace w; snapshots := snapshots w |}.

(** ** The state-and-exception monad *)

Definition M (A : Type) : Type := world → result A * world.

#[export] Instance M_ret : MRet M := λ A a w, (Ok a, w).

#[export] Instance M_bind : MBind M := λ A B f m w,
  match m w with
  | (Ok a, w') => f a w'
  | (Raise e, w') => (Raise e, w')
  end.

Definition raise {A} (e : exn) : M A := λ w, (Raise e, w).

(** [ConnectionResetError] is a subclass of [OSError]. *)
Definition is_OSError (e : exn) : bool :=
  match e with OSError _ _ | ConnectionResetError => true | _ => false end.

Definition is_URLError (e : exn) : bool :=
  match e with URLError _ => true | _ => false end.

(** [try: body / except <catches> as exc: handler / else: orelse].  Only the
    body is protected; exceptions outside [catches] pass through. *)
Definition try_except {A B} (body : M A) (catches : exn → bool)
    (handler : exn → M B) (orelse : A → M B) : M B := λ w,
  match body w with
  | (Ok a, w') => orelse a w'
  | (Raise e, w') => if catches e then handler e w' else (Raise e, w')
  end.

Definition lift {A} (r : result A) : M A := λ w, (r, w).

Definition print (s : string) : M unit := λ w, (Ok tt, put_stdout s w).
Definition print_stderr (s : string) : M unit := λ w, (Ok tt, put_stderr s w).
Definition emit (e : event) : M unit := λ w, (Ok tt, log e w).

(** ** File-system primitives (pathlib and os) *)

Definition node_at (d : filesystem) (p : path) : option node :=
  match p with
  | [] => Some Dir
  | _ => d !! p
  end.

Definition is_dir (d : filesystem) (p : path) : bool :=
  match node_at d p with Some Dir => true | _ => false end.

(** [Path.parent] and the final component [Path.name]. *)
Definition parent (p : path) : path := removelast p.
Definition name (p : path) : string := List.last p "".

(** [p.with_suffix(p.suffix + ".tmp")]: [with_suffix] replaces the suffix of
    the final component by the given one, and the given one starts with the
    old suffix, so the final component gets [".tmp"] appended. *)
Definition with_tmp_suffix (p : path) : path := parent p ++ [name p +:+ ".tmp"].

(** [Path.exists()]. *)
Definition path_exists (p : path) : M bool := λ w,
  (Ok (bool_decide (is_Some (node_at (fs w) p))), w).

(** [Path.read_bytes()]. *)
Definition read_bytes (p : path) : M bytes := λ w,
  match node_at (fs w) p with
  | Some (File c true) => (Ok c, w)
  | Some (File _ false) => (Raise (OSError EACCES p), w)
  | Some Dir => (Raise (OSError EISDIR p), w)
  | None => (Raise (OSError ENOENT p), w)
  end.

(** [Path.mkdir(parents=True, exist_ok=True)] on [above ++ todo], where
    [above] is known to be a directory: walk down, creating what is missing.
    A regular file in the way raises ([FileExistsError] when it is the
    directory asked for, [NotADirectoryError] above it); the exception names
    the path asked for. *)
Fixpoint mkdir_walk (asked above : path) (todo : list string) : M unit :=
  match todo with
  | [] => mret tt
  | c :: rest =>
      let p := above ++ [c] in
      λ w, match fs w !! p with
           | None =>
               mkdir_walk asked p rest
                 (log (EvMkdir p) (commit (<[p := Dir]> (fs w)) w))
           | Some Dir => mkdir_walk asked p rest w
           | Some (File _ _) =>
               (Raise (OSError (match rest with [] => EEXIST | _ => ENOTDIR end)
                               asked), w)
           end
  end.

Definition mkdir_parents (p : path) : M unit := mkdir_walk p [] p.

(** The states the temporary file goes through while [handle.write(data)]
    and the closing flush run: the bytes reach the disk front to back. *)
Definition partial_writes (d : filesystem) (p : path) (data : bytes)
    : list filesystem :=
  (λ k, <[p := File (take k data) true]> d) <$> seq 1 (length data).

Definition commit_all (ds : list filesystem) (w : world) : world :=
  foldl (λ w' d, commit d w') w ds.

(** [with p.open("wb") as handle: handle.write(data)].  Opening truncates an
    existing file or creates a new one; it needs the parent directory and,
    for an existing file, access to it. *)
Definition write_file (p : path) (data : bytes) : M unit := λ w,
  if negb (is_dir (fs w) (parent p)) then
    (Raise (OSError (match node_at (fs w) (parent p) with
                     | None => ENOENT | _ => ENOTDIR end) p), w)
  else
    match node_at (fs w) p with
    | Some Dir => (Raise (OSError EISDIR p), w)
    | Some (File _ false) => (Raise (OSError EACCES p), w)
    | Some (File _ true) | None =>
        let w1 := log (EvOpenWb p) (commit (<[p := File [] true]> (fs w)) w) in
        let w2 := commit_all (partial_writes (fs w1) p data) w1 in
        (Ok tt, log (EvWrite p (length data)) w2)
    end.

(** [os.replace(src, dst)] for a regular file [src]: one atomic step that
    makes [dst] name the file and removes the name [src].  A directory at
    [dst] is not replaced by a file. *)
Definition os_replace (src dst : path) : M unit := λ w,
  match node_at (fs w) src with
  | None => (Raise (OSError ENOENT src), w)
  | Some Dir => (Raise (OSError ENOTDIR src), w)
  | Some (File c a) =>
      match node_at (fs w) dst with
      | Some Dir => (Raise (OSError EISDIR dst), w)
      | _ =>
          (Ok tt, log (EvReplace src dst)
                    (commit (<[dst := File c a]> (delete src (fs w))) w))
      end
  end.

(** ** scripts/install_fonts.py *)

Module install_fonts.
Section install_fonts.

(** [hashlib.sha256(data).hexdigest()]. *)
Variable sha256_hexdigest : bytes → string.
(** [str(REPO_ROOT)], without a trailing separator. *)
Variable REPO_ROOT : string.

Definition FONT_URL : string :=
"https://github.com/googlefonts/noto-fonts/raw/main/hinted/ttf/NotoSans/"
+:+ "NotoSans-Regular.ttf".
Definition FONT_SHA256 : string :=
"b85c38ecea8a7cfb39c24e395a4007474fa5a4fc864f6ee33309eb4948d232d5".
Definition FONT_FILENAME : string := "NotoSans-Regular.ttf".

Definition FONT_TARGETS : list path :=
[ ["OWML_fonts_patch"; "Fonts"; FONT_FILENAME];
  ["OWML_fonts_patch"; "Mods"; "PacificEngine.CheatsMod"; "Fonts";
   FONT_FILENAME];
  ["OWML_fonts_patch"; "Mods"; "clubby789.OWClock"; "Fonts";
   FONT_FILENAME] ].

(** [str(path)], as the f-strings print it. *)
Definition str_path (p : path) : string :=
foldl (λ acc c, acc +:+ "/" +:+ c) REPO_ROOT p.

Definition strerror (e : oserrno) : string :=
match e with
| ENOENT => "[Errno 2] No such file or directory"
| EACCES => "[Errno 13] Permission denied"
| EEXIST => "[Errno 17] File exists"
| ENOTDIR => "[Errno 20] Not a directory"
| EISDIR => "[Errno 21] Is a directory"
end.

(** [str(exc)] for the exceptions the script formats into messages. *)
Definition str_exn (e : exn) : string :=
match e with
| OSError errno filename =>
    strerror errno +:+ ": '" +:+ str_path filename +:+ "'"
| ConnectionResetError => "[Errno 104] Connection reset by peer"
| URLError text => text
| RuntimeError msg => msg
| _ => ""
end.

Definition sha256_digest (data : bytes) : string := sha256_hexdigest data.

Fixpoint existing_font_bytes_from (targets : list path) : M (option bytes) :=
match targets with
| [] => mret None
| target :: rest =>
    ex ← path_exists target;
    if negb ex then existing_font_bytes_from rest
    else
      try_except (read_bytes target) is_OSError
        (λ exc,
           print_stderr ("Warning: could not read " +:+ str_path target
                         +:+ ": " +:+ str_exn exc);;
           existing_font_bytes_from rest)
        (λ data,
           let digest := sha256_digest data in
           if bool_decide (digest = FONT_SHA256) then mret (Some data)
           else
             print_stderr ("Existing font at " +:+ str_path target
                           +:+ " has unexpected hash (" +:+ digest
                           +:+ "); replacing.");;
             existing_font_bytes_from rest)
end.

Definition existing_font_bytes : M (option bytes) :=
emit (EvCall "existing_font_bytes");;
existing_font_bytes_from FONT_TARGETS.

(** [urlopen(request)] and [response.read()]. *)
Definition urlopen_read : M bytes := λ w,
match upstream w with
| UpstreamURLError text => (Raise (URLError text), log EvUrlopen w)
| UpstreamReset => (Raise ConnectionResetError, log EvUrlopen w)
| UpstreamBody payload => (Ok payload, log EvUrlopen w)
end.

Definition download_font : M bytes :=
emit (EvCall "download_font");;
payload ←
  try_except urlopen_read is_URLError
    (λ exc, raise (RuntimeError ("Failed to download " +:+ FONT_URL
                                 +:+ ": " +:+ str_exn exc)))
    mret;
let digest := sha256_digest payload in
if negb (bool_decide (digest = FONT_SHA256)) then
  raise (RuntimeError
           ("Downloaded font does not match expected SHA-256. "
            +:+ "Expected " +:+ FONT_SHA256 +:+ ", got " +:+ digest
            +:+ "."))
else mret payload.

(** Lines 98-107 of the loop body: does the iteration [continue] because
  the target is up to date?  Without [force], an existing target is read
  and digested; a failed read is reported and does not skip. *)
Definition check_existing (target : path) (force : bool) : M bool :=
ex ← path_exists target;
if ex && negb force then
  try_except (read_bytes target) is_OSError
    (λ exc,
       print_stderr ("Warning: could not read " +:+ str_path target
                     +:+ ": " +:+ str_exn exc);;
       mret false)
    (λ existing,
       if bool_decide (sha256_digest existing = FONT_SHA256) then
         print (str_path target +:+ ": up to date");;
         mret true
       else
         print (str_path target +:+ ": checksum mismatch, refreshing");;
         mret false)
else mret false.

(** Lines 111-115: write the temporary sibling, then replace the target. *)
Definition write_target (font_bytes : bytes) (target : path) : M unit :=
let tmp_path := with_tmp_suffix target in
write_file tmp_path font_bytes;;
os_replace tmp_path target;;
print ("Wrote " +:+ str_path target).

(** One iteration of the loop of [ensure_targets]. *)
Definition ensure_target (font_bytes : bytes) (force dry_run : bool)
  (target : path) : M unit :=
mkdir_parents (parent target);;
up_to_date ← check_existing target force;
if up_to_date : bool then mret tt
else if dry_run then print ("Would write font to " +:+ str_path target)
else write_target font_bytes target.

Fixpoint ensure_targets_from (targets : list path) (font_bytes : bytes)
  (force dry_run : bool) : M unit :=
match targets with
| [] => mret tt
| target :: rest =>
    ensure_target font_bytes force dry_run target;;
    ensure_targets_from rest font_bytes force dry_run
end.

Definition ensure_targets (font_bytes : bytes) (force dry_run : bool)
  : M unit :=
emit (EvCall "ensure_targets");;
ensure_targets_from FONT_TARGETS font_bytes force dry_run.

Record Namespace := { force : bool; dry_run : bool }.

(** [arg] selects the long option [opt]: the option itself or an
  unambiguous abbreviation of it (no two options share a first letter). *)
Definition selects (arg opt : string) : bool :=
(2 <? String.length arg)%nat && String.prefix arg opt.

(** [argparse] with the two [store_true] flags and its built-in help.
  Arguments are taken left to right; help exits at once with status 0,
  anything unrecognised makes the parse exit with status 2 at the end.
  The usage and help texts argparse prints are not modelled. *)
Fixpoint parse_loop (argv : list string) (ns : Namespace) (unknown : bool)
  : result Namespace :=
match argv with
| [] => if unknown then Raise (SystemExit 2) else Ok ns
| arg :: rest =>
    if bool_decide (arg = "-h") || selects arg "--help" then
      Raise (SystemExit 0)
    else if selects arg "--force" then
      parse_loop rest {| force := true; dry_run := dry_run ns |} unknown
    else if selects arg "--dry-run" then
      parse_loop rest {| force := force ns; dry_run := true |} unknown
    else parse_loop rest ns true
end.

Definition parse_args (argv : list string) : M Namespace := λ w,
(parse_loop argv {| force := false; dry_run := false |} false, w).

(** [main(argv)]; [argv] is the argument list ([sys.argv[1:]] when the
  script is run from the command line). *)
Definition main (argv : list string) : M Z :=
args ← parse_args argv;
font_bytes ← (if force args then mret None else existing_font_bytes);
font_bytes ← match font_bytes with
             | None => download_font
             | Some cached => mret cached
             end;
ensure_targets font_bytes (force args) (dry_run args);;
mret 0%Z.

End install_fonts.
End install_fonts.

(** ** tests/test_fonts.py *)

(** A Python [str] that may hold non-ASCII text is the list of its code
    points; [ustr] turns an ASCII literal into one. *)
Abbreviation pystr := (list N).

Definition ustr (s : string) : pystr :=
  Ascii.N_of_ascii <$> String.list_ascii_of_string s.

(** [needle in hay] on strings. *)
Fixpoint contains (needle hay : string) : bool :=
  String.prefix needle hay ||
  match hay with
  | EmptyString => false
  | String _ rest => contains needle rest
  end.

(** What [json.load] returns.  A dict is the list of its items in insertion
    order, with distinct keys. *)
#[warnings="-register-all"]
Inductive pyval :=
  | PyNone
  | PyBool (b : bool)
  | PyInt (z : Z)
  | PyFloat (repr : string)
  | PyStr (s : pystr)
  | PyList (items : list pyval)
  | PyDict (items : list (pystr * pyval)).

Definition type_name (v : pyval) : string :=
  match v with
  | PyNone => "NoneType"
  | PyBool _ => "bool"
  | PyInt _ => "int"
  | PyFloat _ => "float"
  | PyStr _ => "str"
  | PyList _ => "list"
  | PyDict _ => "dict"
  end.

Definition no_attribute (v : pyval) (attr : string) : exn :=
  AttributeError ("'" +:+ type_name v +:+ "' object has no attribute '"
                  +:+ attr +:+ "'").

(** [d.get(key, default)] on the items of a dict. *)
Fixpoint dict_get (key : pystr) (items : list (pystr * pyval))
    (default : pyval) : pyval :=
  match items with
  | [] => default
  | (k, v) :: rest => if bool_decide (k = key) then v else dict_get key rest default
  end.

Module test_fonts.
Section test_fonts.

Variable sha256_hexdigest : bytes → string.
Variable REPO_ROOT : string.
(** [unicodedata.name(char, "")]. *)
Variable unicodedata_name : N → string.
(** [json.load] on the bytes of a file opened with [encoding="utf-8"]. *)
Variable json_load : bytes → result pyval.
(** fontTools: [TTFont(path)] on the bytes of the file ([None]: not a
  font), and [font.getBestCmap()]. *)
Variable font : Type.
Variable TTFont : bytes → option font.
Variable getBestCmap : font → option (gmap N string).

Definition FONT_TARGETS := install_fonts.FONT_TARGETS.
Definition FONT_SHA256 := install_fonts.FONT_SHA256.
Definition str_path := install_fonts.str_path REPO_ROOT.

Definition is_cyrillic (char : N) : bool :=
contains "CYRILLIC" (unicodedata_name char).

Definition _iter_cyrillic_characters (strings : list pystr) : gset N :=
foldl (λ characters text,
         foldl (λ characters char,
                  if is_cyrillic char then characters ∪ {[char]}
                  else characters)
               characters text)
      ∅ strings.

(** [with p.open(encoding="utf-8") as handle: json.load(handle)]. *)
Definition load_json (p : path) : M pyval :=
data ← read_bytes p;
lift (json_load data).

(** The texts one entry of [settings] contributes. *)
Definition section_texts (section : pyval) : list pystr :=
match section with
| PyDict items =>
    omap (λ kv, match kv.2 with PyStr s => Some s | _ => None end) items
| PyStr s => [s]
| _ => []
end.

(** [for section in config.get("settings", {}).values(): ...]. *)
Definition settings_texts (config : pyval) : result (list pystr) :=
match config with
| PyDict items =>
    match dict_get (ustr "settings") items (PyDict []) with
    | PyDict sections => Ok (concat (section_texts <$> sections.*2))
    | other => Raise (no_attribute other "values")
    end
| other => Raise (no_attribute other "get")
end.

(** What [for entry in x] iterates over. *)
Definition iterate (x : pyval) : result (list pyval) :=
match x with
| PyList items => Ok items
| PyDict items => Ok (PyStr <$> items.*1)
| PyStr s => Ok ((λ c, PyStr [c]) <$> s)
| other => Raise (TypeError ("'" +:+ type_name other
                             +:+ "' object is not iterable"))
end.

Fixpoint event_names (entries : list pyval) : result (list pystr) :=
match entries with
| [] => Ok []
| entry :: rest =>
    match entry with
    | PyDict items =>
        match event_names rest with
        | Ok names =>
            Ok (match dict_get (ustr "Name") items PyNone with
                | PyStr s => s :: names
                | _ => names
                end)
        | Raise e => Raise e
        end
    | other => Raise (no_attribute other "get")
    end
end.

(** [for entry in events.get("eventList", []): ...]. *)
Definition events_texts (events : pyval) : result (list pystr) :=
match events with
| PyDict items =>
    match iterate (dict_get (ustr "eventList") items (PyList [])) with
    | Ok entries => event_names entries
    | Raise e => Raise e
    end
| other => Raise (no_attribute other "get")
end.

(** The upper-case and lower-case alphabet literal. *)
Definition ALPHABET : pystr :=
[1040; 1041; 1042; 1043; 1044; 1045; 1025; 1046; 1047; 1048; 1049; 1050;
 1051; 1052; 1053; 1054; 1055; 1056; 1057; 1058; 1059; 1060; 1061; 1062;
 1063; 1064; 1065; 1066; 1067; 1068; 1069; 1070; 1071;
 1072; 1073; 1074; 1075; 1076; 1077; 1105; 1078; 1079; 1080; 1081; 1082;
 1083; 1084; 1085; 1086; 1087; 1088; 1089; 1090; 1091; 1092; 1093; 1094;
 1095; 1096; 1097; 1098; 1099; 1100; 1101; 1102; 1103]%N.

Definition load_required_characters : M (gset N) :=
let cheats_config :=
  ["OWML_fonts_patch"; "Mods"; "PacificEngine.CheatsMod"; "config.json"] in
let clock_config :=
  ["OWML_fonts_patch"; "Mods"; "clubby789.OWClock"; "config.json"] in
let clock_events :=
  ["OWML_fonts_patch"; "Mods"; "clubby789.OWClock"; "events.json"] in
config ← load_json cheats_config;
texts1 ← lift (settings_texts config);
config ← load_json clock_config;
texts2 ← lift (settings_texts config);
events ← load_json clock_events;
texts3 ← lift (events_texts events);
let texts := texts1 ++ texts2 ++ texts3 ++ [ALPHABET] in
mret (_iter_cyrillic_characters texts).

(** [assert cond, msg]. *)
Definition assert (cond : bool) (msg : pystr) : M unit :=
if cond then mret tt else raise (AssertionError msg).

(** [sorted(required_chars)]: characters are ordered by code point. *)
Definition sorted (chars : gset N) : list N :=
merge_sort N.le (elements chars).

Definition open_font (font_path : path) : M font :=
emit (EvTTFont font_path);;
data ← read_bytes font_path;
match TTFont data with
| Some f => mret f
| None => raise TTLibError
end.

Definition verify_font_contains (font_path : path) (required_chars : gset N)
  : M unit :=
f ← open_font font_path;
let cmap := default ∅ (getBestCmap f) in
let missing :=
  filter (λ char, cmap !! char = None) (sorted required_chars) in
assert (bool_decide (missing = []))
  (ustr (str_path font_path +:+ " is missing glyphs for: ") ++ missing).

Fixpoint check_targets (targets : list path) (required : gset N) : M unit :=
match targets with
| [] => mret tt
| target :: rest =>
    ex ← path_exists target;
    assert ex (ustr ("Expected font at " +:+ str_path target));;
    data ← read_bytes target;
    let digest := install_fonts.sha256_digest sha256_hexdigest data in
    assert (bool_decide (digest = FONT_SHA256))
      (ustr ("Unexpected font hash at " +:+ str_path target +:+ ": "
             +:+ digest));;
    verify_font_contains target required;;
    check_targets rest required
end.

Definition main : M unit :=
install_fonts.main sha256_hexdigest REPO_ROOT [];;
required ← load_required_characters;
assert (bool_decide (required ≠ ∅))
  (ustr "Did not detect any Cyrillic characters to verify.");;
check_targets FONT_TARGETS required;;
print "All fonts include the required Cyrillic glyphs.".

End test_fonts.
End test_fonts.

(** ** How a run moves the file system

    [run_inv I w w'] says that the final file system and every intermediate
    one are related by [I] to the file system the run started from. *)

Definition run_inv (I : filesystem → filesystem → Prop) (w w' : world) : Prop :=
  I (fs w) (fs w')
  ∧ ∃ news, snapshots w' = snapshots w ++ news ∧ Forall (I (fs w)) news.

(** The output streams only grow, the upstream is not consumed. *)
Definition extends (w w' : world) : Prop :=
  upstream w' = upstream w
  ∧ (∃ out, stdout w' = stdout w ++ out)
  ∧ (∃ err, stderr w' = stderr w ++ err)
  ∧ (∃ evs, trace w' = trace w ++ evs).

(** The directories [mkdir_walk asked above todo] may create, top down. *)
Fixpoint chain (above : path) (todo : list string) : list path :=
  match todo with
  | [] => []
  | c :: rest => (above ++ [c]) :: chain (above ++ [c]) rest
  end.

(** The directories above a path, [REPO_ROOT] excluded. *)
Definition ancestors (p : path) : list path := chain [] (parent p).

Definition adds_dirs (allowed : list path) (d d' : filesystem) : Prop :=
  ∀ p, d' !! p = d !! p
       ∨ (d !! p = None ∧ d' !! p = Some Dir ∧ p ∈ allowed).

(** How distributing [font_bytes] to the targets [ts] may change a path:
    not at all; a directory above a target appears (in a dry run, only where
    there was nothing); the temporary sibling of a target is absent or a
    file; a target holds the complete payload. *)
Definition touches (ts : list path) (font_bytes : bytes) (dry_run : bool)
    (d d' : filesystem) : Prop :=
  ∀ p, d' !! p = d !! p
       ∨ (d' !! p = Some Dir ∧ (dry_run = true → d !! p = None)
          ∧ ∃ t, t ∈ ts ∧ p ∈ ancestors t)
       ∨ (dry_run = false
          ∧ (∃ t, t ∈ ts ∧ p = with_tmp_suffix t)
          ∧ (d' !! p = None ∨ ∃ c, d' !! p = Some (File c true)))
       ∨ (dry_run = false ∧ p ∈ ts ∧ d' !! p = Some (File font_bytes true)).

(** The system-level operations distributing to [ts] may perform. *)
Definition allowed_event (ts : list path) (font_bytes : bytes)
    (dry_run : bool) (e : event) : Prop :=
  match e with
  | EvMkdir p => ∃ t, t ∈ ts ∧ p ∈ ancestors t
  | EvOpenWb p => dry_run = false ∧ ∃ t, t ∈ ts ∧ p = with_tmp_suffix t
  | EvWrite p n =>
      dry_run = false ∧ n = length font_bytes
      ∧ ∃ t, t ∈ ts ∧ p = with_tmp_suffix t
  | EvReplace src dst =>
      dry_run = false ∧ dst ∈ ts ∧ src = with_tmp_suffix dst
  | _ => False
  end.

(** The targets are distinct, none is a directory above another or a
    temporary sibling of another, and no temporary sibling is a directory
    above a target. *)
Definition layout (ts : list path) : Prop :=
  NoDup ts
  ∧ ∀ t t', t ∈ ts → t' ∈ ts →
      t ≠ [] ∧ (t' ∉ ancestors t) ∧ (with_tmp_suffix t' ∉ ancestors t)
      ∧ with_tmp_suffix t' ≠ t.

(** No regular file sits where a directory above [t] has to be. *)
Definition reachable (d : filesystem) (t : path) : Prop :=
  ∀ q, q ∈ ancestors t → d !! q = None ∨ d !! q = Some Dir.

(** The target is not a directory, and its temporary sibling is absent or a
    file the process may open. *)
Definition writable (d : filesystem) (t : path) : Prop :=
  d !! t ≠ Some Dir
  ∧ (d !! with_tmp_suffix t = None
     ∨ ∃ c, d !! with_tmp_suffix t = Some (File c true)).

(** The directories above [t] are there. *)
Definition housed (d : filesystem) (t : path) : Prop :=
  ∀ q, q ∈ ancestors t → d !! q = Some Dir.

Definition put_stdout_all (lines : list string) (w : world) : world :=
  foldl (λ w' s, put_stdout s w') w lines.

(** What one iteration of the distributor reports, as a function of the
    flags and of what the target path holds when the iteration starts. *)
Module report.
Section report.
Variable sha256_hexdigest : bytes → string.

Definition up_to_date (force : bool) (current : option node) : bool :=
negb force &&
match current with
| Some (File c true) =>
    bool_decide (sha256_hexdigest c = install_fonts.FONT_SHA256)
| _ => false
end.

Definition verdict_lines (force : bool) (current : option node)
  (shown : string) : list string :=
if force then []
else match current with
     | Some (File c true) =>
         if bool_decide (sha256_hexdigest c = install_fonts.FONT_SHA256)
         then [shown +:+ ": up to date"]
         else [shown +:+ ": checksum mismatch, refreshing"]
     | _ => []
     end.

Definition stdout_lines (force dry_run : bool) (current : option node)
  (shown : string) : list string :=
verdict_lines force current shown
++ (if up_to_date force current then []
    else if dry_run then ["Would write font to " +:+ shown]
    else ["Wrote " +:+ shown]).

Definition stderr_lines (force : bool) (current : option node)
  (shown : string) : list string :=
if force then []
else match current with
     | Some (File _ false) =>
         ["Warning: could not read " +:+ shown
          +:+ ": [Errno 13] Permission denied: '" +:+ shown +:+ "'"]
     | Some Dir =>
         ["Warning: could not read " +:+ shown
          +:+ ": [Errno 21] Is a directory: '" +:+ shown +:+ "'"]
     | _ => []
     end.

(** The error a fetched payload with another digest raises. *)
Definition mismatch_error (payload : bytes) : exn :=
RuntimeError ("Downloaded font does not match expected SHA-256. "
              +:+ "Expected " +:+ install_fonts.FONT_SHA256 +:+ ", got "
              +:+ sha256_hexdigest payload +:+ ".").

(** A target in its final state: housed, and a readable file with the
  pinned digest. *)
Definition settled (d : filesystem) (t : path) : Prop :=
housed d t
∧ ∃ c, d !! t = Some (File c true) ∧ sha256_hexdigest c = install_fonts.FONT_SHA256.
End report.
End report.

(** What [main] does before the distributor: function entries and at most
    one fetch. *)
Definition prelude_event (e : event) : Prop :=
  e = EvUrlopen ∨ ∃ f, e = EvCall f.


(** The cache probe as the specification words it: the first target that
    holds a readable file with the pinned digest wins; every target scanned
    before it that exists but is unreadable or has another digest yields one
    warning line. *)
Module probe_spec.
Section probe_spec.
Variable sha256_hexdigest : bytes → string.
Variable REPO_ROOT : string.

Definition valid_copy (d : filesystem) (t : path) : option bytes :=
match node_at d t with
| Some (File c true) =>
    if bool_decide (sha256_hexdigest c = install_fonts.FONT_SHA256)
    then Some c else None
| _ => None
end.

Definition first_valid (d : filesystem) (targets : list path)
  : option bytes :=
head (omap (valid_copy d) targets).

Fixpoint scanned_in_vain (d : filesystem) (targets : list path)
  : list path :=
match targets with
| [] => []
| t :: rest =>
    match valid_copy d t with
    | Some _ => []
    | None => t :: scanned_in_vain d rest
    end
end.

Definition warning (d : filesystem) (t : path) : list string :=
let shown := install_fonts.str_path REPO_ROOT t in
match node_at d t with
| None => []
| Some Dir =>
    ["Warning: could not read " +:+ shown
     +:+ ": [Errno 21] Is a directory: '" +:+ shown +:+ "'"]
| Some (File _ false) =>
    ["Warning: could not read " +:+ shown
     +:+ ": [Errno 13] Permission denied: '" +:+ shown +:+ "'"]
| Some (File c true) =>
    ["Existing font at " +:+ shown +:+ " has unexpected hash ("
     +:+ sha256_hexdigest c +:+ "); replacing."]
end.

Definition warnings (d : filesystem) (targets : list path) : list string :=
concat (warning d <$> scanned_in_vain d targets).
End probe_spec.
End probe_spec.

Definition log_all (evs : list event) (w : world) : world :=
  foldl (λ w' e, log e w') w evs.

Definition put_stderr_all (lines : list string) (w : world) : world :=
  foldl (λ w' s, put_stderr s w') w lines.

(** What the event list contributes, entry by entry: an entry has to be an
    object; its [Name] counts when it is a string. *)
Module corpus_spec.

Definition is_object (v : pyval) : bool :=
  match v with PyDict _ => true | _ => false end.

Definition event_name (entry : pyval) : option pystr :=
  match entry with
  | PyDict items =>
      match dict_get (ustr "Name") items PyNone with
      | PyStr s => Some s
      | _ => None
      end
  | _ => None
  end.

(** The strings a section of the settings holds, one level deep. *)
Definition in_section (s : pystr) (section : pyval) : Prop :=
  section = PyStr s ∨ ∃ items, section = PyDict items ∧ PyStr s ∈ items.*2.

End corpus_spec.

(** ** Concrete worlds

    A stand-in digest (every buffer but the empty one has the pinned digest),
    a repository location and a few file-system states, used to run the
    embedding on explicit inputs. *)
Module example.

Definition digest (data : bytes) : string :=
  match data with
  | [] => "e3b0c44298fc1c149afbf4c8996fb92427ae41e4649b934ca495991b7852b855"
  | _ => install_fonts.FONT_SHA256
  end.

Definition root : string := "/repo".

Definition font_data : bytes := [Byte.x00; Byte.x01; Byte.x00; Byte.x00].
Definition old_data : bytes := [Byte.x4f; Byte.x54; Byte.x54; Byte.x4f].

Definition target1 : path :=
  ["OWML_fonts_patch"; "Fonts"; "NotoSans-Regular.ttf"].
Definition target2 : path :=
  ["OWML_fonts_patch"; "Mods"; "PacificEngine.CheatsMod"; "Fonts";
   "NotoSans-Regular.ttf"].
Definition target3 : path :=
  ["OWML_fonts_patch"; "Mods"; "clubby789.OWClock"; "Fonts";
   "NotoSans-Regular.ttf"].

(** The directory tree of the repository, without any font. *)
Definition tree : filesystem :=
  list_to_map
    [ (["OWML_fonts_patch"], Dir);
      (["OWML_fonts_patch"; "Fonts"], Dir);
      (["OWML_fonts_patch"; "Mods"], Dir);
      (["OWML_fonts_patch"; "Mods"; "PacificEngine.CheatsMod"], Dir);
      (["OWML_fonts_patch"; "Mods"; "PacificEngine.CheatsMod"; "Fonts"], Dir);
      (["OWML_fonts_patch"; "Mods"; "clubby789.OWClock"], Dir);
      (["OWML_fonts_patch"; "Mods"; "clubby789.OWClock"; "Fonts"], Dir);
      (["OWML_fonts_patch"; "Mods"; "PacificEngine.CheatsMod"; "config.json"],
       File [] true);
      (["OWML_fonts_patch"; "Mods"; "clubby789.OWClock"; "config.json"],
       File [] true);
      (["OWML_fonts_patch"; "Mods"; "clubby789.OWClock"; "events.json"],
       File [] true) ].

(** The tree with the three targets holding [data]. *)
Definition with_fonts (data : bytes) : filesystem :=
  <[target1 := File data true]>
    (<[target2 := File data true]> (<[target3 := File data true]> tree)).

(** The tree where the first target is a file the process cannot read. *)
Definition first_unreadable : filesystem :=
  <[target1 := File old_data false]> tree.

Definition world_of (d : filesystem) (up : upstream_response) : world :=
  {| fs := d; upstream := up; stdout := []; stderr := []; trace := [];
     snapshots := [] |}.

Definition plain : install_fonts.Namespace :=
  {| install_fonts.force := false; install_fonts.dry_run := false |}.
Definition forced : install_fonts.Namespace :=
  {| install_fonts.force := true; install_fonts.dry_run := false |}.
Definition dry : install_fonts.Namespace :=
  {| install_fonts.force := false; install_fonts.dry_run := true |}.

(** A character database without any name, a JSON reader that finds an empty
    object in every file, and a font library whose fonts map A and BE only. *)
Definition no_names (char : N) : string := "".
(** A character database that knows the Cyrillic block U+0400..U+04FF. *)
Definition cyrillic_block (char : N) : string :=
  if (1024 <=? char)%N && (char <=? 1279)%N then "CYRILLIC LETTER" else "".
Definition empty_object (data : bytes) : result pyval := Ok (PyDict []).
Definition open_any (data : bytes) : option unit := Some tt.
Definition two_glyphs : gmap N string :=
  {[ 1040%N := "afii10017"; 1041%N := "afii10018" ]}.
Definition cmap_of (f : unit) : option (gmap N string) := Some two_glyphs.

(** The tree where the first target has another digest (it is empty), the
    second is valid and the third is missing. *)
Definition one_valid : filesystem :=
  <[target1 := File [] true]> (<[target2 := File font_data true]> tree).


(** A configuration with a string section, an object section holding a
    string, a number and a nested object, and a list section. *)
Definition config_items : list (pystr * pyval) :=
  [ (ustr "name", PyStr [1050%N]);
    (ustr "settings",
     PyDict
       [ (ustr "title", PyStr [1040%N; 1041%N]);
         (ustr "speed",
          PyDict
            [ (ustr "title", PyStr [1042%N]);
              (ustr "value", PyInt 3);
              (ustr "more", PyDict [(ustr "title", PyStr [1043%N])]) ]);
         (ustr "tags", PyList [PyStr [1044%N]]) ]) ].

(** An event file: a named event, an event without name, one whose name is a
    number. *)
Definition event_entries : list pyval :=
  [ PyDict [(ustr "Name", PyStr [1071%N]); (ustr "Time", PyInt 60)];
    PyDict [(ustr "Time", PyInt 90)];
    PyDict [(ustr "Name", PyInt 7)] ].
Definition event_items : list (pystr * pyval) :=
  [ (ustr "eventList", PyList event_entries) ].

(** A font library whose fonts map the whole alphabet literal. *)
Definition full_cmap : gmap N string :=
  list_to_map ((λ c, (c, "glyph")) <$> test_fonts.ALPHABET).
Definition full_cmap_of (f : unit) : option (gmap N string) := Some full_cmap.

(** The characters required when the configuration adds nothing. *)
Definition alphabet_set : gset N :=
  test_fonts._iter_cyrillic_characters cyrillic_block [test_fonts.ALPHABET].

End example.

Section run_lemmas.

Lemma chain_last above todo :
  todo ≠ [] → above ++ todo ∈ chain above todo.
Proof.
  revert above. induction todo as [|c rest IH]; intros above Hne; [done|].
  cbn. destruct rest as [|c' rest'].
  - apply list_elem_of_here.
  - apply list_elem_of_further.
    replace (above ++ c :: c' :: rest') with ((above ++ [c]) ++ c' :: rest')
      by (by rewrite <- app_assoc).
    by apply IH.
Qed.

Lemma elem_of_concat {A} (x : A) (l : list A) (ls : list (list A)) :
  x ∈ l → l ∈ ls → x ∈ concat ls.
Proof.
  intros Hx Hl. induction ls as [|l' ls IH]; [inversion Hl|].
  cbn. apply elem_of_app. apply elem_of_cons in Hl as [->|Hl]; auto.
Qed.

Lemma touches_refl ts fb dry d : touches ts fb dry d d.
Proof. intros p. by left. Qed.

Lemma touches_trans ts fb dry d1 d2 d3 :
  touches ts fb dry d1 d2 → touches ts fb dry d2 d3 → touches ts fb dry d1 d3.
Proof.
  intros H12 H23 p.
  destruct (H23 p) as [Heq|[(Hd & Hnone & Hanc)|[?|?]]].
  - rewrite Heq. destruct (H12 p) as [?|[(? & ? & ?)|[?|?]]]; auto.
  - right; left. split; [done|]. split; [|done].
    intros Hdry. specialize (Hnone Hdry).
    destruct (H12 p) as [Heq|[(? & ? & ?)|[(? & _)|(? & _)]]]; congruence.
  - auto.
  - auto.
Qed.

Lemma touches_mono ts ts' fb dry d d' :
  ts ⊆ ts' → touches ts fb dry d d' → touches ts' fb dry d d'.
Proof.
  intros Hsub H p.
  destruct (H p) as [?|[(? & ? & t & ? & ?)|[(? & (t & ? & ?) & ?)|(? & ? & ?)]]].
  - by left.
  - right; left. repeat split; [done..|]. exists t. split; [by apply Hsub|done].
  - right; right; left. repeat split; [done| |done].
    exists t. split; [by apply Hsub|done].
  - right; right; right. repeat split; [done| |done]. by apply Hsub.
Qed.

Lemma allowed_event_mono ts ts' fb dry e :
  ts ⊆ ts' → allowed_event ts fb dry e → allowed_event ts' fb dry e.
Proof.
  intros Hsub. destruct e; cbn; try done.
  - intros (t & ? & ?). exists t. split; [by apply Hsub|done].
  - intros (? & t & ? & ?). split; [done|]. exists t.
    split; [by apply Hsub|done].
  - intros (? & ? & t & ? & ?). repeat split; [done..|]. exists t.
    split; [by apply Hsub|done].
  - intros (? & ? & ?). repeat split; [done| |done]. by apply Hsub.
Qed.

Lemma adds_dirs_touches t fb dry d d' :
  adds_dirs (ancestors t) d d' → touches [t] fb dry d d'.
Proof.
  intros H p. destruct (H p) as [?|(? & ? & ?)]; [by left|].
  right; left. repeat split; [done..|]. exists t.
  split; [apply list_elem_of_here|done].
Qed.

Lemma chain_length above todo q :
  q ∈ chain above todo →
  length above < length q ∧ length q ≤ length above + length todo.
Proof.
  revert above. induction todo as [|c rest IH]; intros above Hq.
  - inversion Hq.
  - cbn in Hq. apply elem_of_cons in Hq as [->|Hq].
    + rewrite length_app. cbn. lia.
    + apply IH in Hq. rewrite length_app in Hq. cbn in *. lia.
Qed.

Lemma parent_length t : t ≠ [] → S (length (parent t)) = length t.
Proof.
  intros Hne. destruct (exists_last Hne) as (l & x & ->).
  unfold parent. rewrite removelast_last, length_app. cbn. lia.
Qed.

Lemma ancestors_shorter t q : t ≠ [] → q ∈ ancestors t → length q < length t.
Proof.
  intros Hne Hq. apply chain_length in Hq. cbn in Hq.
  pose proof (parent_length t Hne). lia.
Qed.

Lemma tmp_length t : length (with_tmp_suffix t) = S (length (parent t)).
Proof. unfold with_tmp_suffix. rewrite length_app. cbn. lia. Qed.

Lemma tmp_parent t : parent (with_tmp_suffix t) = parent t.
Proof. unfold with_tmp_suffix, parent at 1. apply removelast_last. Qed.

Lemma tmp_not_nil t : with_tmp_suffix t ≠ [].
Proof. unfold with_tmp_suffix. by destruct (parent t). Qed.

Lemma append_tmp_neq (s : string) : s +:+ ".tmp" ≠ s.
Proof. induction s as [|a s IH]; cbn; [done|]. intros [= H]. done. Qed.

Lemma tmp_neq t : with_tmp_suffix t ≠ t.
Proof.
  destruct (decide (t = [])) as [->|Hne]; [done|].
  destruct (exists_last Hne) as (l & x & ->).
  unfold with_tmp_suffix, parent, name.
  rewrite removelast_last, last_last.
  intros H. apply app_inj_tail in H as [_ H]. by apply append_tmp_neq in H.
Qed.

Lemma tmp_not_ancestor t : t ≠ [] → with_tmp_suffix t ∉ ancestors t.
Proof.
  intros Hne Hin. apply ancestors_shorter in Hin; [|done].
  rewrite tmp_length, parent_length in Hin by done. lia.
Qed.

Lemma self_not_ancestor t : t ≠ [] → t ∉ ancestors t.
Proof. intros Hne Hin. apply ancestors_shorter in Hin; [lia|done]. Qed.

Lemma is_dir_parent d t :
  (∀ q, q ∈ ancestors t → d !! q = Some Dir) → is_dir d (parent t) = true.
Proof.
  intros Hall. unfold is_dir, node_at.
  destruct (parent t) as [|c l] eqn:Hp; [done|].
  rewrite (Hall (c :: l)); [done|]. unfold ancestors. rewrite Hp.
  apply (chain_last [] (c :: l)). done.
Qed.


Lemma run_inv_refl I w : (∀ d, I d d) → run_inv I w w.
Proof.
  intros HI. split; [done|]. exists []. by rewrite app_nil_r.
Qed.

Lemma run_inv_trans I w1 w2 w3 :
  (∀ d1 d2 d3, I d1 d2 → I d2 d3 → I d1 d3) →
  run_inv I w1 w2 → run_inv I w2 w3 → run_inv I w1 w3.
Proof.
  intros HI [H12 (n12 & Hs12 & Hn12)] [H23 (n23 & Hs23 & Hn23)].
  split; [eauto|]. exists (n12 ++ n23). split.
  - by rewrite Hs23, Hs12, app_assoc.
  - apply Forall_app. split; [done|].
    eapply Forall_impl; [exact Hn23|]. cbn. eauto.
Qed.

Lemma run_inv_weaken (I J : filesystem → filesystem → Prop) w w' :
  (∀ d', I (fs w) d' → J (fs w) d') → run_inv I w w' → run_inv J w w'.
Proof.
  intros HIJ [H (news & Hs & Hn)]. split; [auto|].
  exists news. split; [done|]. eapply Forall_impl; [exact Hn|]. auto.
Qed.

Lemma run_inv_commit I w d :
  I (fs w) d → run_inv I w (commit d w).
Proof.
  intros H. split; [done|]. exists [d]. split; [done|]. by constructor.
Qed.

Lemma extends_refl w : extends w w.
Proof.
  repeat split; by exists []; rewrite app_nil_r.
Qed.

Lemma extends_trans w1 w2 w3 : extends w1 w2 → extends w2 w3 → extends w1 w3.
Proof.
  intros (Hu & (o1 & Ho1) & (e1 & He1) & (t1 & Ht1)).
  intros (Hu2 & (o2 & Ho2) & (e2 & He2) & (t2 & Ht2)).
  split; [congruence|]. split; [|split].
  - exists (o1 ++ o2). by rewrite Ho2, Ho1, app_assoc.
  - exists (e1 ++ e2). by rewrite He2, He1, app_assoc.
  - exists (t1 ++ t2). by rewrite Ht2, Ht1, app_assoc.
Qed.

Lemma adds_dirs_refl allowed d : adds_dirs allowed d d.
Proof. intros p. by left. Qed.

Lemma adds_dirs_trans allowed d1 d2 d3 :
  adds_dirs allowed d1 d2 → adds_dirs allowed d2 d3 → adds_dirs allowed d1 d3.
Proof.
  intros H12 H23 p.
  destruct (H23 p) as [->|(Hn & Hd & Hin)]; [apply H12|].
  destruct (H12 p) as [Heq|(? & ? & ?)]; [|congruence].
  right. rewrite <- Heq. done.
Qed.

Lemma adds_dirs_mono allowed allowed' d d' :
  allowed ⊆ allowed' → adds_dirs allowed d d' → adds_dirs allowed' d d'.
Proof.
  intros Hsub H p. destruct (H p) as [?|(? & ? & ?)]; [by left|].
  right. repeat split; [done..|]. by apply Hsub.
Qed.

(** What [mkdir_walk] does: it only adds directories along the chain, one
    intermediate state per directory, and prints nothing. *)
Lemma mkdir_walk_spec asked above todo w r w' :
  mkdir_walk asked above todo w = (r, w') →
  run_inv (adds_dirs (chain above todo)) w w'
  ∧ stdout w' = stdout w ∧ stderr w' = stderr w ∧ upstream w' = upstream w
  ∧ (∃ evs, trace w' = trace w ++ evs
            ∧ Forall (λ e, ∃ p, e = EvMkdir p ∧ p ∈ chain above todo) evs)
  ∧ (r = Ok tt → ∀ q, q ∈ chain above todo → fs w' !! q = Some Dir).
Proof.
  revert above w. induction todo as [|c rest IH]; intros above w Hrun.
  - injection Hrun as <- <-. split; [apply run_inv_refl, adds_dirs_refl|].
    repeat split; try done.
    + exists []. by rewrite app_nil_r.
    + intros _ q Hq. inversion Hq.
  - cbn in Hrun. destruct (fs w !! (above ++ [c])) as [[cont acc|]|] eqn:Hp.
    + injection Hrun as <- <-.
      split; [apply run_inv_refl, adds_dirs_refl|].
      repeat split; try done. exists []. by rewrite app_nil_r.
    + destruct (IH _ _ Hrun) as (Hinv & Ho & He & Hu & (evs & Ht & Hevs) & Hok).
      split; [|repeat split; try done].
      * eapply run_inv_weaken; [|exact Hinv].
        intros d'. apply adds_dirs_mono. cbn. set_solver.
      * exists evs. split; [done|]. eapply Forall_impl; [exact Hevs|].
        cbn. intros e (p & -> & Hin). exists p. split; [done|].
        by apply list_elem_of_further.
      * intros Hr q Hq. cbn in Hq. apply elem_of_cons in Hq as [->|Hq].
        -- destruct Hinv as [Hfs _]. destruct (Hfs (above ++ [c])) as [->|(? & ? & ?)];
             done.
        -- by apply Hok.
    + destruct (IH _ _ Hrun) as (Hinv & Ho & He & Hu & (evs & Ht & Hevs) & Hok).
      cbn in Ho, He, Hu, Ht.
      assert (Hstep : adds_dirs (chain above (c :: rest)) (fs w)
                        (<[above ++ [c] := Dir]> (fs w))).
      { intros p. destruct (decide (p = above ++ [c])) as [->|Hne].
        - right. rewrite lookup_insert_eq. repeat split; [done|].
          cbn. apply list_elem_of_here.
        - left. by rewrite lookup_insert_ne. }
      split; [|repeat split; try done].
      * eapply (run_inv_trans _ w (commit (<[above ++ [c] := Dir]> (fs w)) w)).
        -- apply adds_dirs_trans.
        -- by apply run_inv_commit.
        -- destruct Hinv as [Hfs (news & Hs & Hn)]. split.
           ++ eapply adds_dirs_mono; [|exact Hfs]. cbn. set_solver.
           ++ exists news. split; [done|]. eapply Forall_impl; [exact Hn|].
              cbn. intros d'. apply adds_dirs_mono. set_solver.
      * exists (EvMkdir (above ++ [c]) :: evs). split.
        -- rewrite Ht. by rewrite <- app_assoc.
        -- constructor.
           ++ exists (above ++ [c]). split; [done|]. cbn. apply list_elem_of_here.
           ++ eapply Forall_impl; [exact Hevs|].
              cbn. intros e (p & -> & Hin). exists p. split; [done|].
              by apply list_elem_of_further.
      * intros Hr q Hq. cbn in Hq. apply elem_of_cons in Hq as [->|Hq].
        -- destruct Hinv as [Hfs _].
           destruct (Hfs (above ++ [c])) as [Heq|(Hnone & ? & ?)].
           ++ rewrite Heq. cbn. by rewrite lookup_insert_eq.
           ++ cbn in Hnone. by rewrite lookup_insert_eq in Hnone.
        -- by apply Hok.
Qed.

(** When every directory of the chain is there, nothing happens. *)
Lemma mkdir_walk_noop asked above todo w :
  (∀ q, q ∈ chain above todo → fs w !! q = Some Dir) →
  mkdir_walk asked above todo w = (Ok tt, w).
Proof.
  revert above. induction todo as [|c rest IH]; intros above Hall; [done|].
  cbn. rewrite (Hall (above ++ [c])) by (cbn; apply list_elem_of_here).
  apply IH. intros q Hq. apply Hall. cbn. by apply list_elem_of_further.
Qed.

(** When no regular file sits on the chain, the walk succeeds. *)
Lemma mkdir_walk_succeeds asked above todo w :
  (∀ q, q ∈ chain above todo →
        fs w !! q = None ∨ fs w !! q = Some Dir) →
  ∃ w', mkdir_walk asked above todo w = (Ok tt, w').
Proof.
  revert above w. induction todo as [|c rest IH]; intros above w Hall.
  - by exists w.
  - cbn. destruct (Hall (above ++ [c])) as [Hq|Hq];
      [cbn; apply list_elem_of_here|..]; rewrite Hq.
    + apply IH. intros q Hin. cbn.
      destruct (decide (q = above ++ [c])) as [->|Hne].
      * right. by rewrite lookup_insert_eq.
      * rewrite lookup_insert_ne by done. apply Hall. cbn.
        by apply list_elem_of_further.
    + apply IH. intros q Hin. apply Hall. cbn. by apply list_elem_of_further.
Qed.

Lemma commit_all_spec ds w :
  snapshots (commit_all ds w) = snapshots w ++ ds
  ∧ fs (commit_all ds w) = default (fs w) (last ds)
  ∧ upstream (commit_all ds w) = upstream w
  ∧ stdout (commit_all ds w) = stdout w
  ∧ stderr (commit_all ds w) = stderr w
  ∧ trace (commit_all ds w) = trace w.
Proof.
  revert w. induction ds as [|d ds IH] using rev_ind; intros w.
  - by rewrite app_nil_r.
  - unfold commit_all. rewrite foldl_app. cbn.
    destruct (IH w) as (Hs & _ & Hu & Ho & He & Ht).
    fold (commit_all ds w). rewrite Hs, Hu, Ho, He, Ht, last_snoc.
    by rewrite app_assoc.
Qed.

Lemma partial_writes_last d p data :
  default (<[p := File [] true]> d)
    (last (partial_writes (<[p := File [] true]> d) p data))
  = <[p := File data true]> d.
Proof.
  unfold partial_writes. rewrite fmap_last.
  destruct data as [|b data] using rev_ind; [done|].
  rewrite length_app, Nat.add_comm. cbn [length Nat.add].
  rewrite seq_S, last_snoc. cbn.
  rewrite insert_insert_eq. f_equal. f_equal.
  apply firstn_all2. rewrite length_app. cbn. lia.
Qed.

Lemma partial_writes_shape d p data :
  Forall (λ s, ∃ c, s = <[p := File c true]> d)
    (partial_writes (<[p := File [] true]> d) p data).
Proof.
  unfold partial_writes. apply Forall_fmap, Forall_forall. intros k _. cbn.
  exists (take k data). apply insert_insert_eq.
Qed.

(** [write_file] either fails before touching anything, or leaves the
    complete data in the file after having gone through states that differ
    from the initial one only in that file. *)
Lemma write_file_spec p data w r w' :
  write_file p data w = (r, w') →
  (r = Ok tt
   ∧ fs w' = <[p := File data true]> (fs w)
   ∧ upstream w' = upstream w ∧ stdout w' = stdout w ∧ stderr w' = stderr w
   ∧ trace w' = trace w ++ [EvOpenWb p; EvWrite p (length data)]
   ∧ ∃ news, snapshots w' = snapshots w ++ news
             ∧ Forall (λ s, ∃ c, s = <[p := File c true]> (fs w)) news)
  ∨ (∃ e, r = Raise e ∧ w' = w).
Proof.
  unfold write_file. intros Hrun.
  destruct (negb (is_dir (fs w) (parent p))).
  { right. injection Hrun as <- <-. eauto. }
  assert (Hgo : (Ok tt,
            log (EvWrite p (length data))
              (commit_all
                 (partial_writes
                    (fs (log (EvOpenWb p)
                           (commit (<[p := File [] true]> (fs w)) w))) p data)
                 (log (EvOpenWb p) (commit (<[p := File [] true]> (fs w)) w))))
          = (r, w') →
          r = Ok tt
          ∧ fs w' = <[p := File data true]> (fs w)
          ∧ upstream w' = upstream w ∧ stdout w' = stdout w
          ∧ stderr w' = stderr w
          ∧ trace w' = trace w ++ [EvOpenWb p; EvWrite p (length data)]
          ∧ ∃ news, snapshots w' = snapshots w ++ news
                    ∧ Forall (λ s, ∃ c, s = <[p := File c true]> (fs w)) news).
  { intros [= <- <-]. cbn [fs log commit upstream stdout stderr trace snapshots].
    match goal with |- context [commit_all ?ds ?w0] =>
      destruct (commit_all_spec ds w0) as (Hs & Hf & Hu & Ho & He & Ht) end.
    cbn [fs log commit upstream stdout stderr trace snapshots] in *.
    rewrite Hs, Hf, Hu, Ho, He, Ht, partial_writes_last.
    repeat split; [by rewrite <- app_assoc|].
    eexists (_ :: _). rewrite <- app_assoc. split; [reflexivity|].
    constructor; [by eexists|]. apply partial_writes_shape. }
  destruct (node_at (fs w) p) as [[c [|]|]|]; cbn in Hrun.
  - left. by apply Hgo.
  - right. injection Hrun as <- <-. eauto.
  - right. injection Hrun as <- <-. eauto.
  - left. by apply Hgo.
Qed.

Lemma write_file_succeeds p data w :
  is_dir (fs w) (parent p) = true →
  node_at (fs w) p = None ∨ (∃ c, node_at (fs w) p = Some (File c true)) →
  ∃ w', write_file p data w = (Ok tt, w').
Proof.
  intros Hdir Hnode. unfold write_file. rewrite Hdir. cbn.
  destruct Hnode as [->|[c ->]]; eauto.
Qed.

(** What [touches] means at the paths of a layout. *)
Section touches_layout.
Context (all ts : list path) (fb : bytes) (dry : bool) (d d' : filesystem).
Hypothesis Hlayout : layout all.
Hypothesis Hsub : ts ⊆ all.
Hypothesis Htouch : touches ts fb dry d d'.

Lemma touches_target t :
  t ∈ all → d' !! t = d !! t ∨ (dry = false ∧ t ∈ ts ∧ d' !! t = Some (File fb true)).
Proof.
  intros Ht. destruct Hlayout as [_ Hl].
  destruct (Htouch t) as [?|[(_ & _ & t' & Ht' & Hanc)|[(_ & (t' & Ht' & Heq) & _)|?]]].
  - by left.
  - destruct (Hl t' t) as (_ & Hn & _); auto. done.
  - destruct (Hl t t') as (_ & _ & _ & Hn); auto. done.
  - by right.
Qed.

Lemma touches_other_target t : t ∈ all → t ∉ ts → d' !! t = d !! t.
Proof.
  intros Ht Hnot. destruct (touches_target t Ht) as [?|(_ & ? & _)]; done.
Qed.

Lemma touches_dir t q :
  t ∈ all → q ∈ ancestors t → d !! q = Some Dir → d' !! q = Some Dir.
Proof.
  intros Ht Hq Hd. destruct Hlayout as [_ Hl].
  destruct (Htouch q) as [->|[(? & _)|[(_ & (t' & Ht' & ->) & _)|(_ & Ht' & _)]]].
  - done.
  - done.
  - destruct (Hl t t') as (_ & _ & Hn & _); auto. done.
  - destruct (Hl t q) as (_ & Hn & _); auto. done.
Qed.

Lemma touches_reachable t : t ∈ all → reachable d t → reachable d' t.
Proof.
  intros Ht Hr q Hq. destruct Hlayout as [_ Hl].
  destruct (Htouch q) as [->|[(? & _)|[(_ & (t' & Ht' & ->) & _)|(_ & Ht' & _)]]].
  - by apply Hr.
  - by right.
  - destruct (Hl t t') as (_ & _ & Hn & _); auto. done.
  - destruct (Hl t q) as (_ & Hn & _); auto. done.
Qed.

Lemma touches_writable t : t ∈ all → writable d t → writable d' t.
Proof.
  intros Ht [Hnd Htmp]. destruct Hlayout as [_ Hl]. split.
  - destruct (touches_target t Ht) as [->|(_ & _ & ->)]; done.
  - destruct (Htouch (with_tmp_suffix t))
      as [->|[(_ & _ & t' & Ht' & Hanc)|[(_ & _ & ?)|(_ & Ht' & _)]]].
    + done.
    + destruct (Hl t' t) as (_ & _ & Hn & _); auto. done.
    + done.
    + destruct (Hl (with_tmp_suffix t) t) as (_ & _ & _ & Hn); auto. done.
Qed.
End touches_layout.

End run_lemmas.

(** ** Properties of the installer *)

Section installer_facts.
Variable sha256_hexdigest : bytes → string.
Variable REPO_ROOT : string.

Local Abbreviation FONT_SHA256 := install_fonts.FONT_SHA256.
Local Abbreviation FONT_TARGETS := install_fonts.FONT_TARGETS.
Local Abbreviation str_path := (install_fonts.str_path REPO_ROOT).
Local Abbreviation existing_font_bytes_from :=
  (install_fonts.existing_font_bytes_from sha256_hexdigest REPO_ROOT).
Local Abbreviation existing_font_bytes :=
  (install_fonts.existing_font_bytes sha256_hexdigest REPO_ROOT).
Local Abbreviation download_font :=
  (install_fonts.download_font sha256_hexdigest REPO_ROOT).
Local Abbreviation check_existing :=
  (install_fonts.check_existing sha256_hexdigest REPO_ROOT).
Local Abbreviation write_target := (install_fonts.write_target REPO_ROOT).
Local Abbreviation ensure_target :=
  (install_fonts.ensure_target sha256_hexdigest REPO_ROOT).
Local Abbreviation up_to_date := (report.up_to_date sha256_hexdigest).
Local Abbreviation verdict_lines := (report.verdict_lines sha256_hexdigest).
Local Abbreviation stdout_lines := (report.stdout_lines sha256_hexdigest).
Local Abbreviation stderr_lines := report.stderr_lines.
Local Abbreviation settled := (report.settled sha256_hexdigest).
Local Abbreviation mismatch_error :=
  (report.mismatch_error sha256_hexdigest).
Local Abbreviation ensure_targets_from :=
  (install_fonts.ensure_targets_from sha256_hexdigest REPO_ROOT).
Local Abbreviation ensure_targets :=
  (install_fonts.ensure_targets sha256_hexdigest REPO_ROOT).
Local Abbreviation main := (install_fonts.main sha256_hexdigest REPO_ROOT).
Local Abbreviation valid_copy := (probe_spec.valid_copy sha256_hexdigest).
Local Abbreviation first_valid := (probe_spec.first_valid sha256_hexdigest).
Local Abbreviation probe_warnings :=
  (probe_spec.warnings sha256_hexdigest REPO_ROOT).

Lemma put_stderr_all_cons s lines w :
  put_stderr_all (s :: lines) w = put_stderr_all lines (put_stderr s w).
Proof. reflexivity. Qed.

Lemma first_valid_cons d t rest :
  first_valid d (t :: rest) =
    match valid_copy d t with
    | Some c => Some c
    | None => first_valid d rest
    end.
Proof.
  unfold probe_spec.first_valid. cbn. by destruct (valid_copy d t).
Qed.

Lemma probe_warnings_cons d t rest :
  probe_warnings d (t :: rest) =
    match valid_copy d t with
    | Some _ => []
    | None => probe_spec.warning sha256_hexdigest REPO_ROOT d t
              ++ probe_warnings d rest
    end.
Proof.
  unfold probe_spec.warnings. cbn. by destruct (valid_copy d t).
Qed.

Lemma probe_loop targets w :
  existing_font_bytes_from targets w =
    (Ok (first_valid (fs w) targets),
     put_stderr_all (probe_warnings (fs w) targets) w).
Proof.
  revert w. induction targets as [|t rest IH]; intros w; [reflexivity|].
  rewrite first_valid_cons, probe_warnings_cons.
  cbn [install_fonts.existing_font_bytes_from].
  unfold mbind, M_bind, path_exists, try_except, read_bytes, print_stderr.
  unfold probe_spec.valid_copy, probe_spec.warning.
  unfold install_fonts.sha256_digest. cbv beta.
  destruct (node_at (fs w) t) as [[c [|]|]|] eqn:Hn; cbn; rewrite ?Hn; cbn.
  - case_bool_decide; cbn; [reflexivity|]. rewrite IH. reflexivity.
  - rewrite IH. reflexivity.
  - rewrite IH. reflexivity.
  - rewrite IH. reflexivity.
Qed.

Lemma existing_font_bytes_run w :
  existing_font_bytes w =
    (Ok (first_valid (fs w) FONT_TARGETS),
     put_stderr_all (probe_warnings (fs w) FONT_TARGETS)
       (log (EvCall "existing_font_bytes") w)).
Proof.
  unfold install_fonts.existing_font_bytes, mbind, M_bind, emit.
  rewrite probe_loop. reflexivity.
Qed.

Lemma first_valid_None d l :
  first_valid d l = None ↔ ∀ t, t ∈ l → valid_copy d t = None.
Proof.
  induction l as [|t l IH]; rewrite ?first_valid_cons.
  - split; [intros _ t Ht; inversion Ht | done].
  - destruct (valid_copy d t) eqn:Hv.
    + split; [done|]. intros H. specialize (H t (list_elem_of_here _ _)).
      congruence.
    + rewrite IH. split.
      * intros H t' Ht'. apply elem_of_cons in Ht' as [->|?]; auto.
      * intros H t' Ht'. apply H. by apply list_elem_of_further.
Qed.

Lemma first_valid_Some d l data :
  first_valid d l = Some data →
  ∃ before t after,
    l = before ++ t :: after
    ∧ node_at d t = Some (File data true)
    ∧ sha256_hexdigest data = FONT_SHA256
    ∧ ∀ t', t' ∈ before → valid_copy d t' = None.
Proof.
  induction l as [|t l IH]; rewrite ?first_valid_cons; [done|].
  destruct (valid_copy d t) as [c|] eqn:Hv.
  - intros [= ->]. exists [], t, l. split; [done|].
    unfold probe_spec.valid_copy in Hv.
    destruct (node_at d t) as [[c' [|]|]|]; try done.
    case_bool_decide; [|done]. injection Hv as ->.
    repeat split; [done|]. intros t' Ht'. inversion Ht'.
  - intros Hd. destruct (IH Hd) as (before & t0 & after & -> & ? & ? & Hb).
    exists (t :: before), t0, after. repeat split; try done.
    intros t' Ht'. apply elem_of_cons in Ht' as [->|?]; auto.
Qed.

(** C2. The cache probe never raises and never touches the file system;
    it returns the bytes of the first target, in list order, that is a
    readable file with the pinned digest, and [None] exactly when no target
    is one; each target scanned before the hit that exists but cannot be
    read or has another digest adds one warning line to the diagnostic
    stream, and nothing else is printed. *)
Theorem existing_font_bytes_first_match (w : world) :
  existing_font_bytes w =
    (Ok (first_valid (fs w) FONT_TARGETS),
     put_stderr_all (probe_warnings (fs w) FONT_TARGETS)
       (log (EvCall "existing_font_bytes") w))
  ∧ (first_valid (fs w) FONT_TARGETS = None ↔
     ∀ t, t ∈ FONT_TARGETS → valid_copy (fs w) t = None)
  ∧ (∀ data, first_valid (fs w) FONT_TARGETS = Some data →
     ∃ before t after,
       FONT_TARGETS = before ++ t :: after
       ∧ node_at (fs w) t = Some (File data true)
       ∧ sha256_hexdigest data = FONT_SHA256
       ∧ ∀ t', t' ∈ before → valid_copy (fs w) t' = None).
Proof.
  split; [apply existing_font_bytes_run|]. split.
  - apply first_valid_None.
  - intros data. apply first_valid_Some.
Qed.

Lemma put_stdout_all_frame lines w :
  fs (put_stdout_all lines w) = fs w
  ∧ upstream (put_stdout_all lines w) = upstream w
  ∧ stderr (put_stdout_all lines w) = stderr w
  ∧ trace (put_stdout_all lines w) = trace w
  ∧ snapshots (put_stdout_all lines w) = snapshots w
  ∧ stdout (put_stdout_all lines w) = stdout w ++ lines.
Proof.
  revert w. induction lines as [|s lines IH]; intros w.
  - by rewrite app_nil_r.
  - change (put_stdout_all (s :: lines) w)
      with (put_stdout_all lines (put_stdout s w)).
    destruct (IH (put_stdout s w)) as (-> & -> & -> & -> & -> & ->).
    cbn. by rewrite <- app_assoc.
Qed.

Lemma put_stderr_all_frame lines w :
  fs (put_stderr_all lines w) = fs w
  ∧ upstream (put_stderr_all lines w) = upstream w
  ∧ stdout (put_stderr_all lines w) = stdout w
  ∧ trace (put_stderr_all lines w) = trace w
  ∧ snapshots (put_stderr_all lines w) = snapshots w
  ∧ stderr (put_stderr_all lines w) = stderr w ++ lines.
Proof.
  revert w. induction lines as [|s lines IH]; intros w.
  - by rewrite app_nil_r.
  - rewrite put_stderr_all_cons.
    destruct (IH (put_stderr s w)) as (-> & -> & -> & -> & -> & ->).
    cbn. by rewrite <- app_assoc.
Qed.

Lemma download_font_mismatch w payload :
  upstream w = UpstreamBody payload →
  sha256_hexdigest payload ≠ FONT_SHA256 →
  download_font w =
    (Raise (mismatch_error payload),
     log EvUrlopen (log (EvCall "download_font") w)).
Proof.
  intros Hup Hne.
  unfold install_fonts.download_font, mbind, M_bind, emit, try_except,
    install_fonts.urlopen_read, install_fonts.sha256_digest.
  cbn. rewrite Hup. cbn. by rewrite bool_decide_eq_false_2.
Qed.

(** C1. When the body the upstream returns does not have the pinned digest,
    [download_font] raises a [RuntimeError] whose message spells out the
    expected and the actual digest; a run of [main] that reaches the fetch
    (forced, or no valid cached copy) ends with that error, without having
    entered [ensure_targets], with the file system exactly as it was and no
    intermediate file-system state in between. *)
Theorem download_mismatch_is_fatal
    (argv : list string) (args : install_fonts.Namespace) (w : world)
    (payload : bytes) :
  install_fonts.parse_args argv w = (Ok args, w) →
  install_fonts.force args = true ∨ first_valid (fs w) FONT_TARGETS = None →
  upstream w = UpstreamBody payload →
  sha256_hexdigest payload ≠ FONT_SHA256 →
  (∀ w0, upstream w0 = UpstreamBody payload →
     download_font w0 =
       (Raise (RuntimeError
                 ("Downloaded font does not match expected SHA-256. "
                  +:+ "Expected " +:+ FONT_SHA256 +:+ ", got "
                  +:+ sha256_hexdigest payload +:+ ".")),
        log EvUrlopen (log (EvCall "download_font") w0)))
  ∧ ∃ w' evs,
      main argv w = (Raise (mismatch_error payload), w')
      ∧ fs w' = fs w
      ∧ snapshots w' = snapshots w
      ∧ stdout w' = stdout w
      ∧ trace w' = trace w ++ evs
      ∧ EvCall "download_font" ∈ evs
      ∧ EvCall "ensure_targets" ∉ evs.
Proof.
  intros Hparse Hfetch Hup Hne. split.
  { intros w0 Hw0. by apply download_font_mismatch. }
  unfold install_fonts.main, mbind, M_bind. rewrite Hparse.
  destruct (install_fonts.force args) eqn:Hforce.
  - cbn. rewrite (download_font_mismatch _ payload) by done.
    eexists _, [EvCall "download_font"; EvUrlopen].
    split; [reflexivity|]. cbn. rewrite <- app_assoc.
    repeat split; [set_solver|].
    intros H. apply elem_of_cons in H as [?|H]; [done|].
    apply elem_of_cons in H as [?|H]; [done|]. inversion H.
  - destruct Hfetch as [Hf|Hnone]; [done|].
    rewrite existing_font_bytes_run.
    rewrite Hnone.
    destruct (put_stderr_all_frame (probe_warnings (fs w) FONT_TARGETS)
                (log (EvCall "existing_font_bytes") w))
      as (Hfs & Hu & Hout & Htr & Hsn & _).
    rewrite (download_font_mismatch _ payload) by (by rewrite ?Hu).
    eexists _, [EvCall "existing_font_bytes"; EvCall "download_font";
                EvUrlopen].
    split; [reflexivity|]. cbn [fs log snapshots stdout trace].
    rewrite Hfs, Hsn, Hout, Htr. cbn [fs log snapshots stdout trace].
    rewrite <- !app_assoc.
    repeat split; [set_solver|].
    intros H. apply elem_of_cons in H as [?|H]; [done|].
    apply elem_of_cons in H as [?|H]; [done|].
    apply elem_of_cons in H as [?|H]; [done|]. inversion H.
Qed.

Lemma node_at_lookup (d : filesystem) t : t ≠ [] → node_at d t = d !! t.
Proof. by destruct t. Qed.

(** The check of the existing target is total and only prints. *)
Lemma check_existing_spec t force w :
  t ≠ [] →
  check_existing t force w =
    (Ok (up_to_date force (fs w !! t)),
     put_stderr_all (report.stderr_lines force (fs w !! t) (str_path t))
       (put_stdout_all (verdict_lines force (fs w !! t) (str_path t)) w)).
Proof.
  intros Hne.
  unfold install_fonts.check_existing, mbind, M_bind, path_exists,
    try_except, read_bytes, print, print_stderr,
    install_fonts.sha256_digest.
  rewrite (node_at_lookup _ _ Hne).
  unfold report.up_to_date, report.verdict_lines, report.stderr_lines.
  destruct (fs w !! t) as [[c [|]|]|] eqn:Hn, force; cbn;
    rewrite ?(node_at_lookup _ _ Hne), ?Hn; cbn; try reflexivity.
  case_bool_decide; reflexivity.
Qed.

Lemma write_target_spec fb t w r w' :
  t ≠ [] →
  write_target fb t w = (r, w') →
  run_inv (touches [t] fb false) w w'
  ∧ upstream w' = upstream w ∧ stderr w' = stderr w
  ∧ ∃ evs, trace w' = trace w ++ evs
      ∧ Forall (allowed_event [t] fb false) evs
      ∧ ((r = Ok tt
          ∧ stdout w' = stdout w ++ ["Wrote " +:+ str_path t]
          ∧ fs w' !! t = Some (File fb true)
          ∧ fs w' !! with_tmp_suffix t = None
          ∧ EvReplace (with_tmp_suffix t) t ∈ evs)
         ∨ (∃ e, r = Raise e ∧ stdout w' = stdout w)).
Proof.
  intros Hne Hrun. pose proof (tmp_neq t) as Htmp.
  pose proof (tmp_not_nil t) as Htmpnil.
  assert (Hin : t ∈ [t]) by apply list_elem_of_here.
  unfold install_fonts.write_target, mbind, M_bind in Hrun.
  destruct (write_file (with_tmp_suffix t) fb w) as [r1 w1] eqn:Hw.
  apply write_file_spec in Hw
    as [(-> & Hfs & Hu & Ho & He & Ht & news & Hs & Hn)|(e' & -> & ->)].
  2:{ injection Hrun as <- <-. split; [apply run_inv_refl, touches_refl|].
      split; [done|]. split; [done|]. exists []. rewrite app_nil_r.
      split; [done|]. split; [constructor|]. right. eauto. }
  assert (Hw1 : run_inv (touches [t] fb false) w w1).
  { assert (Hshape : ∀ c, touches [t] fb false (fs w)
                         (<[with_tmp_suffix t := File c true]> (fs w))).
    { intros c p. destruct (decide (p = with_tmp_suffix t)) as [->|Hp].
      - right; right; left. rewrite lookup_insert_eq. eauto 10.
      - left. by rewrite lookup_insert_ne. }
    split; [rewrite Hfs; apply Hshape|]. exists news. split; [done|].
    eapply Forall_impl; [exact Hn|]. cbn. intros d' [c ->]. apply Hshape. }
  unfold os_replace in Hrun.
  rewrite (node_at_lookup _ _ Htmpnil), (node_at_lookup _ _ Hne) in Hrun.
  rewrite Hfs, lookup_insert_eq, lookup_insert_ne in Hrun by done.
  assert (Hfail : (Raise (OSError EISDIR t), w1) = (r, w') →
    run_inv (touches [t] fb false) w w'
    ∧ upstream w' = upstream w ∧ stderr w' = stderr w
    ∧ ∃ evs, trace w' = trace w ++ evs
        ∧ Forall (allowed_event [t] fb false) evs
        ∧ ((r = Ok tt
            ∧ stdout w' = stdout w ++ ["Wrote " +:+ str_path t]
            ∧ fs w' !! t = Some (File fb true)
            ∧ fs w' !! with_tmp_suffix t = None
            ∧ EvReplace (with_tmp_suffix t) t ∈ evs)
           ∨ (∃ e, r = Raise e ∧ stdout w' = stdout w))).
  { intros [= <- <-]. split; [done|]. split; [done|]. split; [done|].
    eexists. split; [exact Ht|]. split; [|right; eauto].
    repeat constructor; eauto. }
  assert (Hgood :
    (Ok tt, put_stdout ("Wrote " +:+ str_path t)
              (log (EvReplace (with_tmp_suffix t) t)
                 (commit (<[t := File fb true]>
                            (delete (with_tmp_suffix t)
                               (<[with_tmp_suffix t := File fb true]> (fs w))))
                    w1))) = (r, w') →
    run_inv (touches [t] fb false) w w'
    ∧ upstream w' = upstream w ∧ stderr w' = stderr w
    ∧ ∃ evs, trace w' = trace w ++ evs
        ∧ Forall (allowed_event [t] fb false) evs
        ∧ ((r = Ok tt
            ∧ stdout w' = stdout w ++ ["Wrote " +:+ str_path t]
            ∧ fs w' !! t = Some (File fb true)
            ∧ fs w' !! with_tmp_suffix t = None
            ∧ EvReplace (with_tmp_suffix t) t ∈ evs)
           ∨ (∃ e, r = Raise e ∧ stdout w' = stdout w))).
  { intros [= <- <-].
    cbn [fs snapshots upstream stdout stderr trace put_stdout log commit].
    split; [|repeat split; try done].
    - eapply (run_inv_trans _ w w1); [apply touches_trans|exact Hw1|].
      split; cbn [fs snapshots put_stdout log commit]; [|eexists [_]; split;
        [reflexivity|constructor; [|constructor]]].
      all: intros p; rewrite Hfs;
        destruct (decide (p = t)) as [->|Hpt];
        [right; right; right; by rewrite lookup_insert_eq|];
        rewrite (lookup_insert_ne _ t p) by done;
        destruct (decide (p = with_tmp_suffix t)) as [->|Hp];
        [right; right; left; rewrite lookup_delete_eq; eauto 10|];
        left; by rewrite lookup_delete_ne.
    - eexists [_; _; _]. rewrite Ht, <- app_assoc. split; [reflexivity|].
      split; [repeat constructor; eauto|]. left.
      rewrite lookup_insert_eq, lookup_insert_ne, lookup_delete_eq, Ho by done.
      repeat split. set_solver. }
  destruct (fs w !! t) as [[c [|]|]|]; auto.
Qed.

Lemma write_target_succeeds fb t w :
  t ≠ [] →
  is_dir (fs w) (parent t) = true →
  fs w !! t ≠ Some Dir →
  fs w !! with_tmp_suffix t = None
    ∨ (∃ c, fs w !! with_tmp_suffix t = Some (File c true)) →
  ∃ w', write_target fb t w = (Ok tt, w').
Proof.
  intros Hne Hdir Hnd Htmp. pose proof (tmp_neq t) as Hneq.
  pose proof (tmp_not_nil t) as Htmpnil.
  unfold install_fonts.write_target, mbind, M_bind.
  destruct (write_file_succeeds (with_tmp_suffix t) fb w) as [w1 Hw].
  { by rewrite tmp_parent. }
  { by rewrite (node_at_lookup _ _ Htmpnil). }
  rewrite Hw.
  apply write_file_spec in Hw as [(_ & Hfs & _)|(e & [= ] & _)].
  unfold os_replace.
  rewrite (node_at_lookup _ _ Htmpnil), (node_at_lookup _ _ Hne).
  rewrite Hfs, lookup_insert_eq, lookup_insert_ne by done.
  destruct (fs w !! t) as [[c [|]|]|]; try done; cbn; eauto.
Qed.

Lemma bind_run {A B} (m : M A) (f : A → M B) w r w' :
  (m ≫= f) w = (r, w') →
  (∃ a w1, m w = (Ok a, w1) ∧ f a w1 = (r, w'))
  ∨ (∃ e, m w = (Raise e, w') ∧ r = Raise e).
Proof.
  unfold mbind, M_bind. destruct (m w) as [[a|e] w1]; intros H.
  - left. eauto.
  - right. injection H as <- <-. eauto.
Qed.

Lemma run_inv_same I w w1 w2 :
  fs w2 = fs w1 → snapshots w2 = snapshots w1 →
  run_inv I w w1 → run_inv I w w2.
Proof. unfold run_inv. by intros -> ->. Qed.

(** One iteration of the distributor, summarised. *)
Lemma ensure_target_spec fb force dry t w r w' :
  t ≠ [] →
  ensure_target fb force dry t w = (r, w') →
  run_inv (touches [t] fb dry) w w'
  ∧ upstream w' = upstream w
  ∧ ∃ evs out err,
      trace w' = trace w ++ evs
      ∧ stdout w' = stdout w ++ out
      ∧ stderr w' = stderr w ++ err
      ∧ Forall (allowed_event [t] fb dry) evs
      ∧ (r = Ok tt →
         out = stdout_lines force dry (fs w !! t) (str_path t)
         ∧ err = report.stderr_lines force (fs w !! t) (str_path t)
         ∧ (∀ q, q ∈ ancestors t → fs w' !! q = Some Dir)
         ∧ (if up_to_date force (fs w !! t) || dry
            then fs w' !! t = fs w !! t
            else fs w' !! t = Some (File fb true)
                 ∧ fs w' !! with_tmp_suffix t = None
                 ∧ EvReplace (with_tmp_suffix t) t ∈ evs)).
Proof.
  intros Hne Hrun. unfold install_fonts.ensure_target in Hrun.
  assert (Hin : t ∈ [t]) by apply list_elem_of_here.
  apply bind_run in Hrun as [([] & w1 & Hmk & Hrun)|(e & Hmk & ->)];
    apply mkdir_walk_spec in Hmk
      as (Hinv & Ho & He & Hu & (evs & Ht & Hevs) & Hdirs);
    fold (ancestors t) in *.
  2:{ split; [|split; [done|]].
      - eapply run_inv_weaken; [|exact Hinv]. intros d'.
        apply adds_dirs_touches.
      - exists evs, [], []. rewrite !app_nil_r. repeat split; try done.
        eapply Forall_impl; [exact Hevs|]. intros e' (p & -> & Hp). cbn. eauto. }
  specialize (Hdirs eq_refl).
  assert (Hmkdir : Forall (allowed_event [t] fb dry) evs).
  { eapply Forall_impl; [exact Hevs|]. intros e' (p & -> & Hp). cbn. eauto. }
  assert (Hinv1 : run_inv (touches [t] fb dry) w w1).
  { eapply run_inv_weaken; [|exact Hinv]. intros d'. apply adds_dirs_touches. }
  assert (Hcur : fs w1 !! t = fs w !! t).
  { destruct Hinv as [Hfs _]. destruct (Hfs t) as [?|(_ & _ & Hanc)]; [done|].
    by apply self_not_ancestor in Hanc. }
  apply bind_run in Hrun as [(b & w2 & Hck & Hrun)|(e & Hck & ->)];
    rewrite check_existing_spec in Hck by done;
    injection Hck as Hb Hw2; [|done].
  rewrite Hcur in Hb, Hw2.
  destruct (put_stdout_all_frame (verdict_lines force (fs w !! t) (str_path t)) w1)
    as (Hf1 & Hu1 & He1 & Ht1 & Hs1 & Ho1).
  destruct (put_stderr_all_frame
              (report.stderr_lines force (fs w !! t) (str_path t))
              (put_stdout_all (verdict_lines force (fs w !! t) (str_path t)) w1))
    as (Hf2 & Hu2 & Ho2 & Ht2 & Hs2 & He2).
  rewrite Hw2 in Hf2, Hu2, Ho2, Ht2, Hs2, He2.
  rewrite Hf1 in Hf2. rewrite Hu1 in Hu2. rewrite Ho1 in Ho2.
  rewrite Ht1 in Ht2. rewrite Hs1 in Hs2. rewrite He1 in He2.
  clear Hf1 Hu1 He1 Ht1 Hs1 Ho1 Hw2.
  assert (Hinv2 : run_inv (touches [t] fb dry) w w2)
    by (by apply (run_inv_same _ w w1 w2)).
  subst b. unfold report.stdout_lines.
  destruct (up_to_date force (fs w !! t)) eqn:Hup.
  { injection Hrun as <- <-. split; [done|]. split; [congruence|].
    exists evs, (verdict_lines force (fs w !! t) (str_path t)),
      (report.stderr_lines force (fs w !! t) (str_path t)).
    rewrite Ht2, Ho2, He2, Ho, He, Hf2, app_nil_r. cbn.
    repeat split; try done. }
  destruct dry.
  { injection Hrun as <- <-. split; [done|]. split; [cbn; congruence|].
    exists evs, (verdict_lines force (fs w !! t) (str_path t)
                 ++ ["Would write font to " +:+ str_path t]),
      (report.stderr_lines force (fs w !! t) (str_path t)).
    cbn [fs snapshots upstream stdout stderr trace put_stdout].
    rewrite Ht2, Ho2, He2, Ho, He, Hf2, <- app_assoc. cbn.
    repeat split; try done. }
  apply write_target_spec in Hrun
    as (Hinv3 & Hu3 & He3 & evs3 & Ht3 & Hevs3 & Hres); [|done].
  split; [by eapply run_inv_trans; [apply touches_trans|..]|].
  split; [congruence|].
  destruct Hres as [(-> & Ho3 & Hft & Hftmp & Hrep)|(e & -> & Ho3)].
  - exists (evs ++ evs3),
      (verdict_lines force (fs w !! t) (str_path t)
       ++ ["Wrote " +:+ str_path t]),
      (report.stderr_lines force (fs w !! t) (str_path t)).
    rewrite Ht3, Ho3, He3, Ht2, Ho2, He2, Ht, Ho, He, <- !app_assoc.
    repeat split; try done.
    + by apply Forall_app.
    + intros q Hq. destruct Hinv3 as [Hfs3 _].
      destruct (Hfs3 q) as [Heq|[(? & _)|[(_ & (t' & Ht' & ->) & _)|(_ & Ht' & _)]]].
      * rewrite Heq, Hf2. by apply Hdirs.
      * done.
      * apply list_elem_of_singleton in Ht' as ->.
        by apply tmp_not_ancestor in Hq.
      * apply list_elem_of_singleton in Ht' as ->.
        by apply self_not_ancestor in Hq.
    + cbn. repeat split; try done. set_solver.
  - exists (evs ++ evs3),
      (verdict_lines force (fs w !! t) (str_path t)),
      (report.stderr_lines force (fs w !! t) (str_path t)).
    rewrite Ht3, Ho3, He3, Ht2, Ho2, He2, Ht, Ho, He, <- !app_assoc.
    repeat split; try done. by apply Forall_app.
Qed.

Lemma font_targets_layout : layout FONT_TARGETS.
Proof.
  split.
  - apply (bool_decide_unpack _). by vm_compute.
  - intros t t' Ht Ht'.
    assert (H : Forall (λ t, Forall (λ t', t ≠ [] ∧ (t' ∉ ancestors t)
               ∧ (with_tmp_suffix t' ∉ ancestors t)
               ∧ with_tmp_suffix t' ≠ t) FONT_TARGETS) FONT_TARGETS).
    { apply (bool_decide_unpack _). by vm_compute. }
    rewrite Forall_forall in H. specialize (H t Ht).
    rewrite Forall_forall in H. by apply H.
Qed.

Lemma ensure_target_succeeds fb force dry t w :
  t ≠ [] →
  reachable (fs w) t →
  (dry = false → writable (fs w) t) →
  ∃ w', ensure_target fb force dry t w = (Ok tt, w').
Proof.
  intros Hne Hreach Hwr. unfold install_fonts.ensure_target.
  destruct (mkdir_walk_succeeds (parent t) [] (parent t) w Hreach) as [w1 Hmk].
  unfold mbind at 1, M_bind at 1. unfold mkdir_parents. rewrite Hmk.
  apply mkdir_walk_spec in Hmk as ([Hfs _] & _ & _ & _ & _ & Hdirs).
  fold (ancestors t) in *. specialize (Hdirs eq_refl).
  unfold mbind, M_bind. rewrite check_existing_spec by done.
  destruct (up_to_date force (fs w1 !! t)); [by eexists|].
  destruct dry; [by eexists|].
  destruct (Hwr eq_refl) as [Hnd Htmp].
  match goal with |- context [write_target fb t ?w2] =>
    destruct (write_target_succeeds fb t w2) as [w3 Hw3] end.
  - done.
  - rewrite (proj1 (put_stderr_all_frame _ _)),
      (proj1 (put_stdout_all_frame _ _)). by apply is_dir_parent.
  - rewrite (proj1 (put_stderr_all_frame _ _)),
      (proj1 (put_stdout_all_frame _ _)).
    destruct (Hfs t) as [->|(_ & _ & Hanc)]; [done|].
    by apply self_not_ancestor in Hanc.
  - rewrite (proj1 (put_stderr_all_frame _ _)),
      (proj1 (put_stdout_all_frame _ _)).
    destruct (Hfs (with_tmp_suffix t)) as [->|(_ & _ & Hanc)]; [done|].
    by apply tmp_not_ancestor in Hanc.
  - eauto.
Qed.

(** The whole loop, summarised. *)
Lemma ensure_targets_from_spec all ts fb force dry w r w' :
  layout all → ts ⊆ all → NoDup ts →
  ensure_targets_from ts fb force dry w = (r, w') →
  run_inv (touches ts fb dry) w w'
  ∧ upstream w' = upstream w
  ∧ ∃ evs out err,
      trace w' = trace w ++ evs
      ∧ stdout w' = stdout w ++ out
      ∧ stderr w' = stderr w ++ err
      ∧ Forall (allowed_event ts fb dry) evs
      ∧ (r = Ok tt →
         out = concat ((λ t, stdout_lines force dry (fs w !! t) (str_path t))
                       <$> ts)
         ∧ err = concat ((λ t, stderr_lines force (fs w !! t) (str_path t))
                         <$> ts)
         ∧ ∀ t, t ∈ ts →
             (∀ q, q ∈ ancestors t → fs w' !! q = Some Dir)
             ∧ (if up_to_date force (fs w !! t) || dry
                then fs w' !! t = fs w !! t
                else fs w' !! t = Some (File fb true)
                     ∧ EvReplace (with_tmp_suffix t) t ∈ evs)).
Proof.
  intros Hlay. revert w. induction ts as [|t rest IH]; intros w Hsub Hnd Hrun.
  { injection Hrun as <- <-. split; [apply run_inv_refl, touches_refl|].
    split; [done|]. exists [], [], []. rewrite !app_nil_r.
    split; [done|]. split; [done|]. split; [done|]. split; [constructor|].
    intros _. split; [done|]. split; [done|]. intros t0 Ht0. inversion Ht0. }
  apply NoDup_cons in Hnd as [Hnotin Hnd].
  assert (Ht : t ∈ all) by (apply Hsub, list_elem_of_here).
  assert (Hrest : rest ⊆ all)
    by (intros x Hx; by apply Hsub, list_elem_of_further).
  assert (Hne : t ≠ []) by (destruct Hlay as [_ Hl]; by destruct (Hl t t)).
  assert (Hsub1 : [t] ⊆ all) by (intros x ->%list_elem_of_singleton; done).
  cbn [install_fonts.ensure_targets_from] in Hrun.
  apply bind_run in Hrun as [([] & w1 & H1 & Hrun)|(e & H1 & ->)];
    apply ensure_target_spec in H1
      as (Hinv1 & Hu1 & evs1 & out1 & err1 & Ht1 & Ho1 & He1 & Hev1 & Hok1);
    try done.
  2:{ split.
      - eapply run_inv_weaken; [|exact Hinv1]. intros d'.
        apply touches_mono. set_solver.
      - split; [done|]. exists evs1, out1, err1. repeat split; try done.
        eapply Forall_impl; [exact Hev1|]. intros e'.
        apply allowed_event_mono. set_solver. }
  destruct (Hok1 eq_refl) as (-> & -> & Hdirs1 & Hfin1). clear Hok1.
  destruct (IH _ Hrest Hnd Hrun)
    as (Hinv2 & Hu2 & evs2 & out2 & err2 & Ht2 & Ho2 & He2 & Hev2 & Hok2).
  assert (Hkeep : ∀ t', t' ∈ rest → fs w1 !! t' = fs w !! t').
  { intros t' Ht'. destruct Hinv1 as [Hfs1 _].
    eapply (touches_other_target all [t]); eauto.
    intros ->%list_elem_of_singleton. done. }
  split; [|split; [congruence|]].
  { eapply (run_inv_trans _ w w1 w'); [apply touches_trans| |].
    - eapply run_inv_weaken; [|exact Hinv1]. intros d'.
      apply touches_mono. set_solver.
    - destruct Hinv2 as [Hfs2 (news & Hs & Hn)]. split.
      + eapply touches_mono; [|exact Hfs2]. set_solver.
      + exists news. split; [done|]. eapply Forall_impl; [exact Hn|].
        intros d'. apply touches_mono. set_solver. }
  exists (evs1 ++ evs2),
    (stdout_lines force dry (fs w !! t) (str_path t) ++ out2),
    (stderr_lines force (fs w !! t) (str_path t) ++ err2).
  rewrite Ht2, Ho2, He2, Ht1, Ho1, He1, <- !app_assoc.
  split; [done|]. split; [done|]. split; [done|]. split.
  { apply Forall_app. split.
    - eapply Forall_impl; [exact Hev1|]. intros e'.
      apply allowed_event_mono. set_solver.
    - eapply Forall_impl; [exact Hev2|]. intros e'.
      apply allowed_event_mono. set_solver. }
  intros ->. destruct (Hok2 eq_refl) as (-> & -> & Hall2). clear Hok2.
  assert (Hmap : ∀ (f : option node → string → list string),
            (λ t0, f (fs w1 !! t0) (str_path t0)) <$> rest
            = (λ t0, f (fs w !! t0) (str_path t0)) <$> rest).
  { intros f. apply list_fmap_ext. intros i x Hix. cbn.
    rewrite Hkeep; [done|]. by eapply list_elem_of_lookup_2. }
  split; [cbn; by rewrite Hmap|]. split; [cbn; by rewrite Hmap|].
  intros t' Ht'. apply elem_of_cons in Ht' as [->|Ht'].
  - destruct Hinv2 as [Hfs2 _]. split.
    + intros q Hq. eapply (touches_dir all rest); eauto.
    + assert (Hsame : fs w' !! t = fs w1 !! t)
        by (eapply (touches_other_target all rest); eauto).
      rewrite Hsame.
      destruct (up_to_date force (fs w !! t) || dry); [done|].
      destruct Hfin1 as (? & _ & ?). split; [done|]. set_solver.
  - destruct (Hall2 t' Ht') as [Hd Hf]. split; [done|].
    rewrite (Hkeep t' Ht') in Hf.
    destruct (up_to_date force (fs w !! t') || dry); [congruence|].
    destruct Hf. split; [done|]. set_solver.
Qed.

Lemma ensure_targets_from_succeeds all ts fb force dry w :
  layout all → ts ⊆ all →
  (∀ t, t ∈ ts → reachable (fs w) t) →
  (dry = false → ∀ t, t ∈ ts → writable (fs w) t) →
  ∃ w', ensure_targets_from ts fb force dry w = (Ok tt, w').
Proof.
  intros Hlay. revert w. induction ts as [|t rest IH]; intros w Hsub Hr Hw.
  { by eexists. }
  assert (Ht : t ∈ all) by (apply Hsub, list_elem_of_here).
  assert (Hrest : rest ⊆ all)
    by (intros x Hx; by apply Hsub, list_elem_of_further).
  assert (Hne : t ≠ []) by (destruct Hlay as [_ Hl]; by destruct (Hl t t)).
  assert (Hsub1 : [t] ⊆ all) by (intros x ->%list_elem_of_singleton; done).
  destruct (ensure_target_succeeds fb force dry t w) as [w1 H1]; [done|..].
  { apply Hr, list_elem_of_here. }
  { intros Hdry. apply Hw; [done|apply list_elem_of_here]. }
  cbn [install_fonts.ensure_targets_from]. unfold mbind, M_bind. rewrite H1.
  apply ensure_target_spec in H1 as ([Hfs1 _] & _); [|done].
  apply IH; [done|..].
  - intros t' Ht'. eapply (touches_reachable all [t]); eauto.
    apply Hr. by apply list_elem_of_further.
  - intros Hdry t' Ht'. eapply (touches_writable all [t]); eauto.
    apply Hw; [done|]. by apply list_elem_of_further.
Qed.

(** The fetch prints nothing and leaves the disk alone; what it returns is
    the upstream body, and only when that has the pinned digest. *)
Lemma download_font_frame w r w' :
  download_font w = (r, w') →
  w' = log EvUrlopen (log (EvCall "download_font") w)
  ∧ ∀ fb, r = Ok fb →
      upstream w = UpstreamBody fb ∧ sha256_hexdigest fb = FONT_SHA256.
Proof.
  unfold install_fonts.download_font, mbind, M_bind, emit, try_except,
    install_fonts.urlopen_read, install_fonts.sha256_digest, raise.
  cbn. destruct (upstream w) as [text| |payload]; cbn.
  - intros [= <- <-]. done.
  - intros [= <- <-]. done.
  - case_bool_decide; cbn; intros [= <- <-]; split; try done.
    by intros fb [= <-].
Qed.

(** How [main] gets to the distributor. *)
Lemma main_cases argv args w r w' :
  install_fonts.parse_args argv w = (Ok args, w) →
  main argv w = (r, w') →
  ∃ w0 evs0,
    fs w0 = fs w ∧ snapshots w0 = snapshots w ∧ stdout w0 = stdout w
    ∧ upstream w0 = upstream w ∧ trace w0 = trace w ++ evs0
    ∧ Forall prelude_event evs0
    ∧ (install_fonts.force args = true →
       EvCall "existing_font_bytes" ∉ evs0)
    ∧ ((∃ e, r = Raise e ∧ w' = w0 ∧ EvUrlopen ∈ evs0)
       ∨ ∃ fb r1,
           sha256_hexdigest fb = FONT_SHA256
           ∧ ensure_targets fb (install_fonts.force args)
               (install_fonts.dry_run args) w0 = (r1, w')
           ∧ r = match r1 with Ok _ => Ok 0%Z | Raise e => Raise e end
           ∧ ((install_fonts.force args = false
               ∧ first_valid (fs w) FONT_TARGETS = Some fb
               ∧ w0 = put_stderr_all (probe_warnings (fs w) FONT_TARGETS)
                        (log (EvCall "existing_font_bytes") w))
              ∨ ((install_fonts.force args = true
                  ∨ first_valid (fs w) FONT_TARGETS = None)
                 ∧ upstream w = UpstreamBody fb
                 ∧ EvUrlopen ∈ evs0))).
Proof.
  intros Hparse Hrun. unfold install_fonts.main in Hrun.
  apply bind_run in Hrun as [(args' & w0' & Hp & Hrun)|(e & Hp & _)];
    rewrite Hparse in Hp; [|done].
  injection Hp as <- <-.
  assert (Hlast : ∀ fb w0, (ensure_targets fb (install_fonts.force args)
              (install_fonts.dry_run args);; mret 0%Z) w0 = (r, w') →
            ∃ r1, ensure_targets fb (install_fonts.force args)
                    (install_fonts.dry_run args) w0 = (r1, w')
                  ∧ r = match r1 with Ok _ => Ok 0%Z | Raise e => Raise e end).
  { intros fb w0 H. apply bind_run in H as [([] & w2 & H1 & H2)|(e & H1 & ->)].
    - injection H2 as <- <-. by exists (Ok tt).
    - by exists (Raise e). }
  set (goal := ∃ w0 evs0,
    fs w0 = fs w ∧ snapshots w0 = snapshots w ∧ stdout w0 = stdout w
    ∧ upstream w0 = upstream w ∧ trace w0 = trace w ++ evs0
    ∧ Forall prelude_event evs0
    ∧ (install_fonts.force args = true →
       EvCall "existing_font_bytes" ∉ evs0)
    ∧ ((∃ e, r = Raise e ∧ w' = w0 ∧ EvUrlopen ∈ evs0)
       ∨ ∃ fb r1,
           sha256_hexdigest fb = FONT_SHA256
           ∧ ensure_targets fb (install_fonts.force args)
               (install_fonts.dry_run args) w0 = (r1, w')
           ∧ r = match r1 with Ok _ => Ok 0%Z | Raise e => Raise e end
           ∧ ((install_fonts.force args = false
               ∧ first_valid (fs w) FONT_TARGETS = Some fb
               ∧ w0 = put_stderr_all (probe_warnings (fs w) FONT_TARGETS)
                        (log (EvCall "existing_font_bytes") w))
              ∨ ((install_fonts.force args = true
                  ∨ first_valid (fs w) FONT_TARGETS = None)
                 ∧ upstream w = UpstreamBody fb
                 ∧ EvUrlopen ∈ evs0)))).
  assert (Hdl : ∀ w1 evs1,
            fs w1 = fs w → snapshots w1 = snapshots w → stdout w1 = stdout w →
            upstream w1 = upstream w → trace w1 = trace w ++ evs1 →
            Forall prelude_event evs1 →
            (install_fonts.force args = true →
             EvCall "existing_font_bytes" ∉ evs1) →
            install_fonts.force args = true
              ∨ first_valid (fs w) FONT_TARGETS = None →
            (download_font ≫= λ fb,
               ensure_targets fb (install_fonts.force args)
                 (install_fonts.dry_run args);; mret 0%Z) w1 = (r, w') →
            goal).
  { intros w1 evs1 Hf Hs Ho Hu Ht Hpre Hcall Hwhy H.
    exists (log EvUrlopen (log (EvCall "download_font") w1)),
      (evs1 ++ [EvCall "download_font"; EvUrlopen]).
    cbn [fs snapshots stdout upstream trace log].
    rewrite Ht, <- !app_assoc. cbn [app].
    split; [done|]. split; [done|]. split; [done|]. split; [done|].
    split; [done|]. split.
    { apply Forall_app. split; [done|].
      constructor; [right; eauto|]. constructor; [by left|constructor]. }
    split.
    { intros Hforce Hin. apply elem_of_app in Hin as [Hin|Hin].
      - by apply Hcall.
      - apply elem_of_cons in Hin as [?|Hin]; [done|].
        apply elem_of_cons in Hin as [?|Hin]; [done|]. inversion Hin. }
    assert (Hurl : EvUrlopen ∈ evs1 ++ [EvCall "download_font"; EvUrlopen])
      by set_solver.
    apply bind_run in H as [(fb & w2 & Hd & H)|(e & Hd & ->)];
      apply download_font_frame in Hd as [-> Hbody].
    - right. destruct (Hbody fb eq_refl) as [Hup Hsha].
      destruct (Hlast _ _ H) as (r1 & Hens & ->).
      exists fb, r1. repeat split; try done. right.
      repeat split; try done. congruence.
    - left. eauto. }
  destruct (install_fonts.force args) eqn:Hforce.
  - cbn in Hrun. apply (Hdl w []); auto.
    + by rewrite app_nil_r.
    + intros _ H. inversion H.
  - apply bind_run in Hrun as [(cached & w1 & Hprobe & Hrun)|(e & Hprobe & _)];
      pose proof (existing_font_bytes_run w) as Hprobe';
      rewrite Hprobe' in Hprobe; [|done].
    injection Hprobe as Hc Hw1.
    destruct (put_stderr_all_frame (probe_warnings (fs w) FONT_TARGETS)
                (log (EvCall "existing_font_bytes") w))
      as (Hfs & Hu & Hout & Htr & Hsn & _).
    rewrite Hw1 in Hfs, Hu, Hout, Htr, Hsn. cbn in Hfs, Hu, Hout, Htr, Hsn.
    assert (Hpre : Forall prelude_event [EvCall "existing_font_bytes"]).
    { constructor; [right; eauto|constructor]. }
    destruct cached as [fb|].
    + exists w1, [EvCall "existing_font_bytes"].
      split; [done|]. split; [done|]. split; [done|]. split; [done|].
      split; [done|]. split; [done|]. split; [done|]. right.
      destruct (Hlast _ _ Hrun) as (r1 & Hens & ->).
      destruct (first_valid_Some _ _ _ Hc) as (? & ? & ? & _ & _ & Hsha & _).
      exists fb, r1. split; [done|]. split; [done|]. split; [done|]. left.
      split; [done|]. split; [done|]. done.
    + apply (Hdl w1 [EvCall "existing_font_bytes"]); auto. done.
Qed.

Lemma ensure_targets_spec fb force dry w r w' :
  ensure_targets fb force dry w = (r, w') →
  run_inv (touches FONT_TARGETS fb dry) w w'
  ∧ upstream w' = upstream w
  ∧ ∃ evs out err,
      trace w' = trace w ++ EvCall "ensure_targets" :: evs
      ∧ stdout w' = stdout w ++ out
      ∧ stderr w' = stderr w ++ err
      ∧ Forall (allowed_event FONT_TARGETS fb dry) evs
      ∧ (r = Ok tt →
         out = concat ((λ t, stdout_lines force dry (fs w !! t) (str_path t))
                       <$> FONT_TARGETS)
         ∧ err = concat ((λ t, stderr_lines force (fs w !! t) (str_path t))
                         <$> FONT_TARGETS)
         ∧ ∀ t, t ∈ FONT_TARGETS →
             (∀ q, q ∈ ancestors t → fs w' !! q = Some Dir)
             ∧ (if up_to_date force (fs w !! t) || dry
                then fs w' !! t = fs w !! t
                else fs w' !! t = Some (File fb true)
                     ∧ EvReplace (with_tmp_suffix t) t ∈ evs)).
Proof.
  intros Hrun. unfold install_fonts.ensure_targets, mbind, M_bind, emit in Hrun.
  apply (ensure_targets_from_spec FONT_TARGETS) in Hrun
    as (Hinv & Hu & evs & out & err & Ht & Ho & He & Hev & Hok).
  - split; [exact Hinv|]. split; [exact Hu|]. exists evs, out, err.
    cbn in Ht. rewrite <- app_assoc in Ht. done.
  - apply font_targets_layout.
  - done.
  - apply font_targets_layout.
Qed.

Lemma ensure_targets_succeeds fb force dry w :
  (∀ t, t ∈ FONT_TARGETS → reachable (fs w) t) →
  (dry = false → ∀ t, t ∈ FONT_TARGETS → writable (fs w) t) →
  ∃ w', ensure_targets fb force dry w = (Ok tt, w').
Proof.
  intros Hr Hw. unfold install_fonts.ensure_targets, mbind, M_bind, emit.
  apply (ensure_targets_from_succeeds FONT_TARGETS); try done.
  apply font_targets_layout.
Qed.

(** C6. Whatever the flags and the prior state, and whether the distributor
    finishes or stops on an error: in every file-system state the run goes
    through (a kill at any moment leaves one of them, the ones with a
    half-written temporary file included) and in the final one, each target
    path holds exactly what it held before the run or the complete payload;
    the only operations on files are the creation and filling of a target's
    temporary sibling and the atomic replacement of the target by that
    sibling; and in a run that completes without [dry_run], every target
    that was not up to date has been replaced in this way. *)
Theorem target_never_partially_written
    (fb : bytes) (force dry : bool) (w : world) (r : result unit)
    (w' : world) :
  ensure_targets fb force dry w = (r, w') →
  (∃ news, snapshots w' = snapshots w ++ news
     ∧ ∀ s t, s ∈ news → t ∈ FONT_TARGETS →
         s !! t = fs w !! t ∨ s !! t = Some (File fb true))
  ∧ (∀ t, t ∈ FONT_TARGETS →
       fs w' !! t = fs w !! t ∨ fs w' !! t = Some (File fb true))
  ∧ ∃ evs, trace w' = trace w ++ EvCall "ensure_targets" :: evs
      ∧ Forall (allowed_event FONT_TARGETS fb dry) evs
      ∧ (r = Ok tt → dry = false →
         ∀ t, t ∈ FONT_TARGETS → up_to_date force (fs w !! t) = false →
           EvReplace (with_tmp_suffix t) t ∈ evs
           ∧ fs w' !! t = Some (File fb true)).
Proof.
  intros Hrun. apply ensure_targets_spec in Hrun
    as ([Hfs (news & Hs & Hn)] & _ & evs & out & err & Ht & _ & _ & Hev & Hok).
  pose proof font_targets_layout as Hlay.
  assert (Hpart : ∀ d', touches FONT_TARGETS fb dry (fs w) d' →
            ∀ t, t ∈ FONT_TARGETS →
              d' !! t = fs w !! t ∨ d' !! t = Some (File fb true)).
  { intros d' Hd t Hin.
    destruct (touches_target FONT_TARGETS FONT_TARGETS fb dry (fs w) d'
                Hlay (reflexivity _) Hd t Hin) as [?|(_ & _ & ?)]; auto. }
  split; [|split].
  - exists news. split; [done|]. intros s t Hin. rewrite Forall_forall in Hn.
    apply Hpart. by apply Hn.
  - by apply Hpart.
  - exists evs. split; [done|]. split; [done|].
    intros Hr -> t Hin Hup. destruct (Hok Hr) as (_ & _ & Hall).
    destruct (Hall t Hin) as [_ Hfin]. rewrite Hup in Hfin. cbn in Hfin.
    destruct Hfin. done.
Qed.

Lemma touches_dry_files ts fb d d' :
  touches ts fb true d d' →
  ∀ p c a, d' !! p = Some (File c a) ↔ d !! p = Some (File c a).
Proof.
  intros H p c a.
  destruct (H p) as [->|[(Hd & Hn & _)|[(? & _)|(? & _)]]]; try done.
  rewrite Hd, Hn by done. split; intros; discriminate.
Qed.

(** C4. Whatever the prior state and the other flag: a run of [main] with
    [--dry-run] neither creates, changes nor removes any regular file (so
    no target file), in the final state and in every state the run goes
    through, and performs no file operation at all besides [mkdir]; when it
    completes, standard output carries, for every target that is not
    reported up to date, the line [Would write font to <target>]. *)
Theorem dry_run_writes_nothing
    (argv : list string) (args : install_fonts.Namespace) (w : world)
    (r : result Z) (w' : world) :
  install_fonts.parse_args argv w = (Ok args, w) →
  install_fonts.dry_run args = true →
  main argv w = (r, w') →
  (∀ p c a, fs w' !! p = Some (File c a) ↔ fs w !! p = Some (File c a))
  ∧ (∃ news, snapshots w' = snapshots w ++ news
       ∧ ∀ s p c a, s ∈ news →
           s !! p = Some (File c a) ↔ fs w !! p = Some (File c a))
  ∧ (∃ evs, trace w' = trace w ++ evs
       ∧ ∀ e, e ∈ evs →
           match e with
           | EvOpenWb _ | EvWrite _ _ | EvReplace _ _ => False
           | _ => True
           end)
  ∧ ∃ out, stdout w' = stdout w ++ out
      ∧ (r = Ok 0%Z →
         ∀ t, t ∈ FONT_TARGETS →
           up_to_date (install_fonts.force args) (fs w !! t) = false →
           "Would write font to " +:+ str_path t ∈ out).
Proof.
  intros Hparse Hdry Hrun.
  destruct (main_cases _ _ _ _ _ Hparse Hrun)
    as (w0 & evs0 & Hf0 & Hs0 & Ho0 & Hu0 & Ht0 & Hpre & Hcall & Hcases).
  assert (Hquiet : ∀ e, e ∈ evs0 →
            match e with
            | EvOpenWb _ | EvWrite _ _ | EvReplace _ _ => False
            | _ => True
            end).
  { intros e He. rewrite Forall_forall in Hpre.
    destruct (Hpre e He) as [->|[f ->]]; done. }
  destruct Hcases as [(e & -> & -> & Hurl)|(fb & r1 & Hsha & Hens & -> & Hsrc)].
  { rewrite Hf0, Hs0, Ho0, Ht0. split; [done|]. split.
    - exists []. rewrite app_nil_r. split; [done|]. intros s p c a Hin.
      inversion Hin.
    - split; [by exists evs0|]. exists []. by rewrite app_nil_r. }
  rewrite Hdry in Hens.
  apply ensure_targets_spec in Hens
    as ([Hfs (news & Hs & Hn)] & _ & evs & out & err & Ht & Ho & _ & Hev & Hok).
  rewrite Hf0 in Hfs, Hn, Hok. rewrite Hs0 in Hs. rewrite Ht0 in Ht.
  rewrite Ho0 in Ho.
  split; [by apply (touches_dry_files FONT_TARGETS fb)|]. split.
  { exists news. split; [done|]. intros s p c a Hin.
    rewrite Forall_forall in Hn.
    apply (touches_dry_files FONT_TARGETS fb). by apply Hn. }
  split.
  { exists (evs0 ++ EvCall "ensure_targets" :: evs).
    split; [by rewrite Ht, <- app_assoc|].
    intros e He. apply elem_of_app in He as [He|He]; [by apply Hquiet|].
    apply elem_of_cons in He as [->|He]; [done|].
    rewrite Forall_forall in Hev. specialize (Hev e He).
    destruct e; try done; cbn in Hev; by destruct Hev. }
  exists out. split; [done|]. intros Hr t Hin Hup.
  destruct r1 as [[]|]; [|done].
  destruct (Hok eq_refl) as (-> & _ & _).
  apply (elem_of_concat _
           (stdout_lines (install_fonts.force args) true (fs w !! t)
              (str_path t))).
  - unfold report.stdout_lines. rewrite Hup. set_solver.
  - apply list_elem_of_fmap. by exists t.
Qed.

Lemma font_targets_parents t :
  t ∈ FONT_TARGETS → parent t ∈ ancestors t.
Proof.
  assert (H : Forall (λ t, parent t ∈ ancestors t) FONT_TARGETS).
  { apply (bool_decide_unpack _). by vm_compute. }
  rewrite Forall_forall in H. apply H.
Qed.


(** C10. Without [force], a target that exists as a file the process cannot
    read is not skipped: from a state in which the distributor can do its
    work it completes, the iteration for that target prints the warning on
    the diagnostic stream and, on standard output, only [Would write font
    to <target>] (dry run) or [Wrote <target>]; it never prints
    [<target>: up to date]; and without [dry_run] the target has been
    replaced by the payload. *)
Theorem unreadable_target_is_rewritten
    (fb : bytes) (dry : bool) (w : world) (t : path) (c : bytes) :
  t ∈ FONT_TARGETS →
  fs w !! t = Some (File c false) →
  (∀ t', t' ∈ FONT_TARGETS → reachable (fs w) t') →
  (dry = false → ∀ t', t' ∈ FONT_TARGETS → writable (fs w) t') →
  ∃ w' evs,
    ensure_targets fb false dry w = (Ok tt, w')
    ∧ stdout w' = stdout w
        ++ concat ((λ t', stdout_lines false dry (fs w !! t') (str_path t'))
                   <$> FONT_TARGETS)
    ∧ stdout_lines false dry (fs w !! t) (str_path t)
      = [if dry then "Would write font to " +:+ str_path t
         else "Wrote " +:+ str_path t]
    ∧ stderr w' = stderr w
        ++ concat ((λ t', stderr_lines false (fs w !! t') (str_path t'))
                   <$> FONT_TARGETS)
    ∧ stderr_lines false (fs w !! t) (str_path t)
      = ["Warning: could not read " +:+ str_path t
         +:+ ": [Errno 13] Permission denied: '" +:+ str_path t +:+ "'"]
    ∧ trace w' = trace w ++ EvCall "ensure_targets" :: evs
    ∧ (if dry then fs w' !! t = Some (File c false)
       else fs w' !! t = Some (File fb true)
            ∧ EvReplace (with_tmp_suffix t) t ∈ evs).
Proof.
  intros Ht Hcur Hr Hw.
  destruct (ensure_targets_succeeds fb false dry w Hr Hw) as [w' Hrun].
  pose proof Hrun as Hspec. apply ensure_targets_spec in Hspec
    as (_ & _ & evs & out & err & Htr & Ho & He & _ & Hok).
  destruct (Hok eq_refl) as (-> & -> & Hall). destruct (Hall t Ht) as [_ Hfin].
  exists w', evs. split; [done|]. split; [done|]. split.
  { unfold report.stdout_lines, report.verdict_lines, report.up_to_date.
    rewrite Hcur. cbn. by destruct dry. }
  split; [done|]. split; [by rewrite Hcur|]. split; [done|].
  unfold report.up_to_date in Hfin. rewrite Hcur in Hfin. cbn in Hfin.
  destruct dry; [congruence|done].
Qed.


Lemma ensure_target_noop fb dry t w :
  t ≠ [] → settled (fs w) t →
  ensure_target fb false dry t w
  = (Ok tt, put_stdout (str_path t +:+ ": up to date") w).
Proof.
  intros Hne [Hdirs (c & Hc & Hsha)].
  unfold install_fonts.ensure_target, mbind, M_bind, mkdir_parents.
  rewrite mkdir_walk_noop by done.
  rewrite check_existing_spec by done. rewrite Hc.
  unfold report.up_to_date, report.verdict_lines, report.stderr_lines.
  cbn. rewrite bool_decide_eq_true_2 by done. reflexivity.
Qed.

Lemma ensure_targets_from_noop ts fb dry w :
  (∀ t, t ∈ ts → t ≠ [] ∧ settled (fs w) t) →
  ensure_targets_from ts fb false dry w
  = (Ok tt, put_stdout_all ((λ t, str_path t +:+ ": up to date") <$> ts) w).
Proof.
  revert w. induction ts as [|t rest IH]; intros w Hall; [done|].
  cbn [install_fonts.ensure_targets_from]. unfold mbind, M_bind.
  destruct (Hall t) as [Hne Hset]; [apply list_elem_of_here|].
  rewrite ensure_target_noop by done.
  rewrite IH; [done|]. intros t' Ht'. cbn. apply Hall.
  by apply list_elem_of_further.
Qed.

(** After a run that completed without [--dry-run], every target is
    settled. *)
Lemma main_settles argv args w w1 :
  install_fonts.parse_args argv w = (Ok args, w) →
  install_fonts.dry_run args = false →
  main argv w = (Ok 0%Z, w1) →
  ∀ t, t ∈ FONT_TARGETS → settled (fs w1) t.
Proof.
  intros Hparse Hdry Hrun t Ht.
  destruct (main_cases _ _ _ _ _ Hparse Hrun)
    as (w0 & evs0 & Hf0 & _ & _ & _ & _ & _ & _ & Hcases).
  destruct Hcases as [(e & [= ] & _)|(fb & r1 & Hsha & Hens & Hr & _)].
  destruct r1 as [[]|]; [|done]. rewrite Hdry in Hens.
  apply ensure_targets_spec in Hens as (_ & _ & evs & out & err & _ & _ & _ & _ & Hok).
  destruct (Hok eq_refl) as (_ & _ & Hall). destruct (Hall t Ht) as [Hd Hfin].
  split; [done|]. rewrite orb_false_r in Hfin.
  destruct (up_to_date (install_fonts.force args) (fs w0 !! t)) eqn:Hup.
  - rewrite Hfin. unfold report.up_to_date in Hup.
    apply andb_true_iff in Hup as [_ Hup].
    destruct (fs w0 !! t) as [[c [|]|]|]; try done.
    apply bool_decide_eq_true in Hup. eauto.
  - destruct Hfin as [Hfin _]. eauto.
Qed.

(** C3. After one run of [main] that completed (with or without [--force],
    without [--dry-run]), a second run without [--force] returns 0 and
    leaves the whole file system as the first run left it, without going
    through any other state: nothing is fetched, no file is opened,
    written or replaced, no directory is made; standard output gets exactly
    one [<target>: up to date] line per target, in target order, and the
    diagnostic stream gets nothing. *)
Theorem second_run_changes_nothing
    (argv1 argv2 : list string) (args1 args2 : install_fonts.Namespace)
    (w w1 : world) :
  install_fonts.parse_args argv1 w = (Ok args1, w) →
  install_fonts.dry_run args1 = false →
  main argv1 w = (Ok 0%Z, w1) →
  install_fonts.parse_args argv2 w1 = (Ok args2, w1) →
  install_fonts.force args2 = false →
  ∃ w2,
    main argv2 w1 = (Ok 0%Z, w2)
    ∧ fs w2 = fs w1
    ∧ snapshots w2 = snapshots w1
    ∧ stdout w2 = stdout w1
        ++ ((λ t, str_path t +:+ ": up to date") <$> FONT_TARGETS)
    ∧ stderr w2 = stderr w1
    ∧ trace w2 = trace w1
        ++ [EvCall "existing_font_bytes"; EvCall "ensure_targets"].
Proof.
  intros Hparse1 Hdry1 Hrun1 Hparse2 Hforce2.
  pose proof (main_settles _ _ _ _ Hparse1 Hdry1 Hrun1) as Hset.
  pose proof font_targets_layout as [_ Hlay].
  unfold install_fonts.main, mbind, M_bind. rewrite Hparse2, Hforce2.
  rewrite existing_font_bytes_run.
  assert (Hfirst : ∃ c,
            first_valid (fs w1) FONT_TARGETS = Some c
            ∧ probe_warnings (fs w1) FONT_TARGETS = []).
  { destruct (Hset ["OWML_fonts_patch"; "Fonts"; install_fonts.FONT_FILENAME])
      as [_ (c & Hc & Hsha)]; [apply list_elem_of_here|].
    exists c. unfold install_fonts.FONT_TARGETS.
    rewrite first_valid_cons, probe_warnings_cons.
    unfold probe_spec.valid_copy. cbn [node_at]. rewrite Hc.
    by rewrite bool_decide_eq_true_2. }
  destruct Hfirst as (c & -> & ->). cbn [put_stderr_all foldl].
  unfold install_fonts.ensure_targets, mbind, M_bind, emit, mret, M_ret.
  rewrite ensure_targets_from_noop.
  2:{ intros t Ht. split; [by destruct (Hlay t t)|]. by apply Hset. }
  eexists. split; [reflexivity|].
  match goal with |- context [put_stdout_all ?l ?w0] =>
    destruct (put_stdout_all_frame l w0) as (-> & _ & -> & -> & -> & ->) end.
  cbn. by rewrite <- app_assoc.
Qed.

(** *** Further properties of the installer *)

Lemma parse_args_pure argv w :
  ∃ r, install_fonts.parse_args argv w = (r, w).
Proof. unfold install_fonts.parse_args. eauto. Qed.

Lemma main_parse_error argv w e :
  install_fonts.parse_args argv w = (Raise e, w) →
  main argv w = (Raise e, w).
Proof.
  intros H. unfold install_fonts.main, mbind, M_bind. by rewrite H.
Qed.

Lemma download_font_url_error w text :
  upstream w = UpstreamURLError text →
  download_font w =
    (Raise (RuntimeError ("Failed to download " +:+ install_fonts.FONT_URL
                          +:+ ": " +:+ text)),
     log EvUrlopen (log (EvCall "download_font") w)).
Proof.
  intros Hup.
  unfold install_fonts.download_font, mbind, M_bind, emit, try_except,
    install_fonts.urlopen_read, raise.
  cbn. rewrite Hup. reflexivity.
Qed.

Lemma download_font_ok w payload :
  upstream w = UpstreamBody payload →
  sha256_hexdigest payload = FONT_SHA256 →
  download_font w =
    (Ok payload, log EvUrlopen (log (EvCall "download_font") w)).
Proof.
  intros Hup Hsha.
  unfold install_fonts.download_font, mbind, M_bind, emit, try_except,
    install_fonts.urlopen_read, install_fonts.sha256_digest.
  cbn. rewrite Hup. cbn. by rewrite bool_decide_eq_true_2.
Qed.

(** X1. When the transport fails with a [URLError], a run of [main] that
    reaches the fetch (forced, or no valid cached copy) ends with
    [RuntimeError("Failed to download <FONT_URL>: <error text>")]; the
    distributor is not entered, nothing is printed on standard output, and
    the file system is exactly as it was. *)
Theorem fetch_failure_is_fatal
    (argv : list string) (args : install_fonts.Namespace) (w : world)
    (text : string) :
  install_fonts.parse_args argv w = (Ok args, w) →
  install_fonts.force args = true ∨ first_valid (fs w) FONT_TARGETS = None →
  upstream w = UpstreamURLError text →
  ∃ w' evs,
    main argv w
    = (Raise (RuntimeError ("Failed to download " +:+ install_fonts.FONT_URL
                            +:+ ": " +:+ text)), w')
    ∧ fs w' = fs w
    ∧ snapshots w' = snapshots w
    ∧ stdout w' = stdout w
    ∧ trace w' = trace w ++ evs
    ∧ (EvCall "ensure_targets" ∉ evs).
Proof.
  intros Hparse Hfetch Hup.
  unfold install_fonts.main, mbind, M_bind. rewrite Hparse.
  destruct (install_fonts.force args) eqn:Hforce.
  - cbn. rewrite (download_font_url_error _ text) by done.
    eexists _, [EvCall "download_font"; EvUrlopen].
    split; [reflexivity|]. cbn. rewrite <- app_assoc.
    repeat split.
    intros H. apply elem_of_cons in H as [?|H]; [done|].
    apply elem_of_cons in H as [?|H]; [done|]. inversion H.
  - destruct Hfetch as [Hf|Hnone]; [done|].
    rewrite existing_font_bytes_run, Hnone.
    destruct (put_stderr_all_frame (probe_warnings (fs w) FONT_TARGETS)
                (log (EvCall "existing_font_bytes") w))
      as (Hfs & Hu & Hout & Htr & Hsn & _).
    rewrite (download_font_url_error _ text) by (by rewrite ?Hu).
    eexists _, [EvCall "existing_font_bytes"; EvCall "download_font";
                EvUrlopen].
    split; [reflexivity|]. cbn [fs log snapshots stdout trace].
    rewrite Hfs, Hsn, Hout, Htr. cbn [fs log snapshots stdout trace].
    rewrite <- !app_assoc.
    repeat split.
    intros H. apply elem_of_cons in H as [?|H]; [done|].
    apply elem_of_cons in H as [?|H]; [done|].
    apply elem_of_cons in H as [?|H]; [done|]. inversion H.
Qed.

(** X2. Whatever the arguments, the upstream and the outcome: in the final
    file system of a run of [main] and in every state it goes through, each
    target path holds what it held before the run or a readable file whose
    digest is the pinned one.  No content that fails the integrity check
    ever reaches a target. *)
Theorem targets_only_receive_pinned_content
    (argv : list string) (w : world) :
  (∀ t, t ∈ FONT_TARGETS →
     fs (main argv w).2 !! t = fs w !! t
     ∨ ∃ c, fs (main argv w).2 !! t = Some (File c true)
            ∧ sha256_hexdigest c = FONT_SHA256)
  ∧ ∃ news, snapshots (main argv w).2 = snapshots w ++ news
      ∧ ∀ s t, s ∈ news → t ∈ FONT_TARGETS →
          s !! t = fs w !! t
          ∨ ∃ c, s !! t = Some (File c true)
                 ∧ sha256_hexdigest c = FONT_SHA256.
Proof.
  destruct (main argv w) as [r w'] eqn:Hrun. cbn [snd].
  destruct (parse_args_pure argv w) as [[args|e] Hparse].
  2:{ rewrite (main_parse_error _ _ _ Hparse) in Hrun. injection Hrun as _ <-.
      split; [by left|]. exists []. rewrite app_nil_r. split; [done|].
      intros s t Hs. inversion Hs. }
  destruct (main_cases _ _ _ _ _ Hparse Hrun)
    as (w0 & evs0 & Hf0 & Hs0 & _ & _ & _ & _ & _ & Hcases).
  destruct Hcases as [(e & _ & -> & _)|(fb & r1 & Hsha & Hens & _ & _)].
  { rewrite Hf0, Hs0. split; [by left|]. exists []. rewrite app_nil_r.
    split; [done|]. intros s t Hs. inversion Hs. }
  apply ensure_targets_spec in Hens as ([Hfs (news & Hs & Hn)] & _).
  rewrite Hf0 in Hfs, Hn. rewrite Hs0 in Hs.
  pose proof font_targets_layout as Hlay.
  assert (Hpart : ∀ d', touches FONT_TARGETS fb (install_fonts.dry_run args)
                          (fs w) d' →
            ∀ t, t ∈ FONT_TARGETS →
              d' !! t = fs w !! t
              ∨ ∃ c, d' !! t = Some (File c true)
                     ∧ sha256_hexdigest c = FONT_SHA256).
  { intros d' Hd t Hin.
    destruct (touches_target FONT_TARGETS FONT_TARGETS fb _ (fs w) d'
                Hlay (reflexivity _) Hd t Hin) as [?|(_ & _ & ?)]; eauto. }
  split; [by apply Hpart|]. exists news. split; [done|].
  intros s t Hin. rewrite Forall_forall in Hn. apply Hpart. by apply Hn.
Qed.

(** X3. When [main] returns 0 and [--dry-run] was not given, every target is
    a readable file whose digest is the pinned one, and all the directories
    above it exist. *)
Theorem completed_run_settles_targets
    (argv : list string) (args : install_fonts.Namespace) (w w1 : world) :
  install_fonts.parse_args argv w = (Ok args, w) →
  install_fonts.dry_run args = false →
  main argv w = (Ok 0%Z, w1) →
  ∀ t, t ∈ FONT_TARGETS →
    (∃ c, fs w1 !! t = Some (File c true)
          ∧ sha256_hexdigest c = FONT_SHA256)
    ∧ fs w1 !! parent t = Some Dir
    ∧ ∀ q, q ∈ ancestors t → fs w1 !! q = Some Dir.
Proof.
  intros Hparse Hdry Hrun t Ht.
  destruct (main_settles _ _ _ _ Hparse Hdry Hrun t Ht) as [Hd Hc].
  split; [done|]. split; [|done]. by apply Hd, font_targets_parents.
Qed.

Lemma up_to_date_valid_copy d t :
  t ≠ [] →
  up_to_date false (d !! t) = bool_decide (is_Some (valid_copy d t)).
Proof.
  intros Hne. unfold report.up_to_date, probe_spec.valid_copy.
  rewrite (node_at_lookup _ _ Hne). cbn.
  destruct (d !! t) as [[c [|]|]|]; cbn; try reflexivity.
  by destruct (bool_decide (sha256_hexdigest c = FONT_SHA256)).
Qed.

Lemma target_not_nil t : t ∈ FONT_TARGETS → t ≠ [].
Proof.
  intros Ht. destruct font_targets_layout as [_ Hl]. by destruct (Hl t t).
Qed.

(** X4. A plain run (neither flag) that finds no valid cached copy, with an
    upstream body that has the pinned digest and a file system in which the
    distributor can work, fetches the payload, returns 0 and leaves every
    target holding exactly the fetched bytes, each reported as written. *)
Theorem cache_miss_installs_download
    (argv : list string) (args : install_fonts.Namespace) (w : world)
    (payload : bytes) :
  install_fonts.parse_args argv w = (Ok args, w) →
  install_fonts.force args = false →
  install_fonts.dry_run args = false →
  first_valid (fs w) FONT_TARGETS = None →
  upstream w = UpstreamBody payload →
  sha256_hexdigest payload = FONT_SHA256 →
  (∀ t, t ∈ FONT_TARGETS → reachable (fs w) t ∧ writable (fs w) t) →
  ∃ w' evs out,
    main argv w = (Ok 0%Z, w')
    ∧ trace w' = trace w ++ evs
    ∧ EvUrlopen ∈ evs
    ∧ stdout w' = stdout w ++ out
    ∧ ∀ t, t ∈ FONT_TARGETS →
        fs w' !! t = Some (File payload true)
        ∧ "Wrote " +:+ str_path t ∈ out.
Proof.
  intros Hparse Hforce Hdry Hnone Hup Hsha Hstate.
  unfold install_fonts.main, mbind, M_bind. rewrite Hparse, Hforce, Hdry.
  rewrite existing_font_bytes_run, Hnone.
  destruct (put_stderr_all_frame (probe_warnings (fs w) FONT_TARGETS)
              (log (EvCall "existing_font_bytes") w))
    as (Hfs & Hu & Hout & Htr & Hsn & _).
  cbn [fs upstream stdout trace log] in Hfs, Hu, Hout, Htr.
  rewrite (download_font_ok _ payload) by (by rewrite ?Hu).
  match goal with |- context [ensure_targets payload false false ?w0] =>
    destruct (ensure_targets_succeeds payload false false w0) as [w' Hrun] end.
  { intros t Ht. cbn [fs log]. rewrite Hfs. by apply Hstate. }
  { intros _ t Ht. cbn [fs log]. rewrite Hfs. by apply Hstate. }
  rewrite Hrun. apply ensure_targets_spec in Hrun
    as (_ & _ & evs & out & err & Htr' & Ho & _ & _ & Hok).
  destruct (Hok eq_refl) as (-> & _ & Hall).
  cbn [fs log trace stdout] in Htr', Ho, Hall.
  rewrite Hfs in Hall. rewrite Htr in Htr'. rewrite Hout, Hfs in Ho.
  eexists w', _, _. split; [reflexivity|].
  split; [by rewrite Htr', <- !app_assoc|].
  split; [set_solver|]. split; [exact Ho|].
  intros t Ht. destruct (Hall t Ht) as [_ Hfin].
  assert (Hup0 : up_to_date false (fs w !! t) = false).
  { rewrite up_to_date_valid_copy by (by apply target_not_nil).
    apply bool_decide_eq_false_2.
    rewrite (proj1 (first_valid_None _ _) Hnone t Ht). by intros [? ?]. }
  rewrite Hup0 in Hfin. cbn in Hfin. destruct Hfin as [Hf _].
  split; [done|].
  apply (elem_of_concat _ (stdout_lines false false (fs w !! t) (str_path t))).
  - unfold report.stdout_lines. rewrite Hup0. set_solver.
  - apply list_elem_of_fmap. by exists t.
Qed.

(** X5. A plain run that finds a valid cached copy never touches the
    network: whatever the upstream would answer, from a file system in which
    the distributor can work the run returns 0 without any fetch, leaves
    every target that was valid as it is, and gives every other target the
    bytes of the cached copy. *)
Theorem cached_copy_repairs_offline
    (argv : list string) (args : install_fonts.Namespace) (w : world)
    (cached : bytes) :
  install_fonts.parse_args argv w = (Ok args, w) →
  install_fonts.force args = false →
  install_fonts.dry_run args = false →
  first_valid (fs w) FONT_TARGETS = Some cached →
  (∀ t, t ∈ FONT_TARGETS → reachable (fs w) t ∧ writable (fs w) t) →
  ∃ w' evs,
    main argv w = (Ok 0%Z, w')
    ∧ trace w' = trace w ++ evs
    ∧ (EvUrlopen ∉ evs)
    ∧ ∀ t, t ∈ FONT_TARGETS →
        (is_Some (valid_copy (fs w) t) → fs w' !! t = fs w !! t)
        ∧ (valid_copy (fs w) t = None →
           fs w' !! t = Some (File cached true)).
Proof.
  intros Hparse Hforce Hdry Hsome Hstate.
  unfold install_fonts.main, mbind, M_bind. rewrite Hparse, Hforce, Hdry.
  rewrite existing_font_bytes_run, Hsome.
  destruct (put_stderr_all_frame (probe_warnings (fs w) FONT_TARGETS)
              (log (EvCall "existing_font_bytes") w))
    as (Hfs & Hu & Hout & Htr & Hsn & _).
  cbn [fs upstream stdout trace log] in Hfs, Hu, Hout, Htr.
  unfold mret, M_ret.
  match goal with |- context [ensure_targets cached false false ?w0] =>
    destruct (ensure_targets_succeeds cached false false w0) as [w' Hrun] end.
  { intros t Ht. rewrite Hfs. by apply Hstate. }
  { intros _ t Ht. rewrite Hfs. by apply Hstate. }
  rewrite Hrun. apply ensure_targets_spec in Hrun
    as (_ & _ & evs & out & err & Htr' & _ & _ & Hev & Hok).
  destruct (Hok eq_refl) as (_ & _ & Hall).
  rewrite Hfs in Hall. rewrite Htr in Htr'.
  exists w', ([EvCall "existing_font_bytes"] ++ EvCall "ensure_targets" :: evs).
  split; [reflexivity|]. split; [by rewrite Htr', <- !app_assoc|]. split.
  { intros Hin. apply elem_of_cons in Hin as [?|Hin]; [done|].
    apply elem_of_cons in Hin as [?|Hin]; [done|].
    rewrite Forall_forall in Hev. by apply Hev in Hin. }
  intros t Ht. destruct (Hall t Ht) as [_ Hfin].
  rewrite up_to_date_valid_copy in Hfin by (by apply target_not_nil).
  rewrite orb_false_r in Hfin. split.
  - intros Hv. by rewrite bool_decide_eq_true_2 in Hfin.
  - intros Hv. rewrite bool_decide_eq_false_2 in Hfin.
    + by destruct Hfin.
    + rewrite Hv. by intros [? ?].
Qed.

(** X6. A dry run of the distributor still makes directories, so it can
    fail: it completes exactly when no regular file sits where a directory
    above a target has to be. *)
Theorem dry_run_completes_iff_unblocked
    (fb : bytes) (force : bool) (w : world) :
  (∃ w', ensure_targets fb force true w = (Ok tt, w'))
  ↔ ∀ t, t ∈ FONT_TARGETS → reachable (fs w) t.
Proof.
  split.
  - intros [w' Hrun] t Ht q Hq.
    apply ensure_targets_spec in Hrun
      as ([Hfs _] & _ & evs & out & err & _ & _ & _ & _ & Hok).
    destruct (Hok eq_refl) as (_ & _ & Hall). destruct (Hall t Ht) as [Hd _].
    specialize (Hd q Hq).
    destruct (Hfs q) as [Heq|[(_ & Hn & _)|[(? & _)|(? & _)]]]; try done.
    + right. congruence.
    + left. by apply Hn.
  - intros Hr. by apply ensure_targets_succeeds.
Qed.



End installer_facts.

(** ** Properties of the glyph-coverage check *)

Section verifier_facts.
Variable sha256_hexdigest : bytes → string.
Variable REPO_ROOT : string.
Variable unicodedata_name : N → string.
Variable json_load : bytes → result pyval.
Variable font : Type.
Variable TTFont : bytes → option font.
Variable getBestCmap : font → option (gmap N string).

Local Abbreviation str_path := (install_fonts.str_path REPO_ROOT).
Local Abbreviation verify_font_contains :=
  (test_fonts.verify_font_contains REPO_ROOT font TTFont getBestCmap).
Local Abbreviation load_required_characters :=
  (test_fonts.load_required_characters unicodedata_name json_load).
Local Abbreviation is_cyrillic := (test_fonts.is_cyrillic unicodedata_name).
Local Abbreviation _iter_cyrillic_characters :=
  (test_fonts._iter_cyrillic_characters unicodedata_name).
Local Abbreviation verifier_main :=
  (test_fonts.main sha256_hexdigest REPO_ROOT unicodedata_name json_load
     font TTFont getBestCmap).

Lemma sorted_three :
  test_fonts.sorted {[1040%N; 1041%N; 1103%N]} = [1040%N; 1041%N; 1103%N].
Proof. by vm_compute. Qed.

(** C7. With the required characters A (U+0410), BE (U+0411) and small YA
    (U+044F), and a font whose best character map has the first two code
    points and lacks the third, [verify_font_contains] fails its assertion,
    and the message is the font path, [ is missing glyphs for: ] and
    exactly the character U+044F. *)
Theorem missing_glyph_is_named
    (font_path : path) (data : bytes) (f : font) (cmap : gmap N string)
    (w : world) :
  node_at (fs w) font_path = Some (File data true) →
  TTFont data = Some f →
  getBestCmap f = Some cmap →
  is_Some (cmap !! 1040%N) →
  is_Some (cmap !! 1041%N) →
  cmap !! 1103%N = None →
  verify_font_contains font_path {[1040%N; 1041%N; 1103%N]} w
  = (Raise (AssertionError
              (ustr (str_path font_path +:+ " is missing glyphs for: ")
               ++ [1103%N])),
     log (EvTTFont font_path) w).
Proof.
  intros Hnode Hfont Hcmap [g1 H1] [g2 H2] H3.
  unfold test_fonts.verify_font_contains, test_fonts.open_font, mbind,
    M_bind, emit, read_bytes.
  cbn [fs log]. rewrite Hnode, Hfont. cbn. rewrite Hcmap, sorted_three. cbn.
  destruct (decide (cmap !! 1040%N = None)) as [E|_]; [congruence|].
  destruct (decide (cmap !! 1041%N = None)) as [E|_]; [congruence|].
  destruct (decide (cmap !! 1103%N = None)) as [_|E]; [|congruence].
  reflexivity.
Qed.

Lemma iter_text (acc : gset N) (text : pystr) (c : N) :
  c ∈ foldl (λ characters char,
               if is_cyrillic char then characters ∪ {[char]} else characters)
            acc text
  ↔ c ∈ acc ∨ (is_cyrillic c = true ∧ c ∈ text).
Proof.
  revert acc. induction text as [|x text IH]; intros acc; cbn.
  - split; [by left|]. intros [?|[_ H]]; [done|inversion H].
  - rewrite IH. destruct (is_cyrillic x) eqn:Hx.
    + rewrite elem_of_union, elem_of_singleton, elem_of_cons. naive_solver.
    + split.
      * intros [?|[? ?]]; [by left|right].
        split; [done|by apply list_elem_of_further].
      * intros [?|[Hc Hin]]; [by left|].
        apply elem_of_cons in Hin as [->|?]; [congruence|by right].
Qed.

(** The set collected is the set of the characters of the texts that
    [unicodedata] names as Cyrillic. *)
Lemma iter_cyrillic_spec (strings : list pystr) (c : N) :
  c ∈ _iter_cyrillic_characters strings
  ↔ is_cyrillic c = true ∧ ∃ text, text ∈ strings ∧ c ∈ text.
Proof.
  unfold test_fonts._iter_cyrillic_characters.
  assert (H : ∀ acc : gset N,
            c ∈ foldl (λ characters text,
                         foldl (λ characters char,
                                  if is_cyrillic char
                                  then characters ∪ {[char]}
                                  else characters) characters text)
                      acc strings
            ↔ c ∈ acc ∨ (is_cyrillic c = true
                         ∧ ∃ text, text ∈ strings ∧ c ∈ text)).
  { induction strings as [|text strings IH]; intros acc; cbn.
    - split; [by left|]. intros [?|(_ & t & Ht & _)]; [done|inversion Ht].
    - rewrite IH, iter_text. split.
      + intros [[?|[? ?]]|(? & t & ? & ?)]; [by left|right..].
        * split; [done|]. exists text. split; [apply list_elem_of_here|done].
        * split; [done|]. exists t. split; [by apply list_elem_of_further|done].
      + intros [?|(? & t & Ht & ?)]; [by left; left|].
        apply elem_of_cons in Ht as [->|Ht]; [by left; right|].
        right. eauto. }
  rewrite H. set_solver.
Qed.

(** Collecting the required characters reads files and touches nothing. *)
Lemma load_required_characters_pure w r w' :
  load_required_characters w = (r, w') → w' = w.
Proof.
  unfold test_fonts.load_required_characters, test_fonts.load_json, mbind,
    M_bind, read_bytes, lift, mret, M_ret.
  repeat match goal with
         | |- context [match node_at ?d ?p with _ => _ end] =>
             destruct (node_at d p) as [[? [|]|]|]
         | |- context [json_load ?x] => destruct (json_load x)
         | |- context [test_fonts.settings_texts ?x] =>
             destruct (test_fonts.settings_texts x)
         | |- context [test_fonts.events_texts ?x] =>
             destruct (test_fonts.events_texts x)
         end; by intros [= _ <-].
Qed.

(** As long as [unicodedata] names U+0410 as Cyrillic, the collected set
    cannot be empty: the alphabet literal is always part of the corpus. *)
Lemma load_required_characters_nonempty w (required : gset N) w' :
  is_cyrillic 1040%N = true →
  load_required_characters w = (Ok required, w') →
  required ≠ ∅.
Proof.
  intros Hcyr.
  unfold test_fonts.load_required_characters, test_fonts.load_json, mbind,
    M_bind, read_bytes, lift, mret, M_ret.
  repeat match goal with
         | |- context [match node_at ?d ?p with _ => _ end] =>
             destruct (node_at d p) as [[? [|]|]|]
         | |- context [json_load ?x] => destruct (json_load x)
         | |- context [test_fonts.settings_texts ?x] =>
             destruct (test_fonts.settings_texts x)
         | |- context [test_fonts.events_texts ?x] =>
             destruct (test_fonts.events_texts x)
         end; try (by intros [= ]).
  intros [= <- _] Hempty.
  match type of Hempty with
  | _iter_cyrillic_characters ?texts = _ =>
      assert (Hin : 1040%N ∈ _iter_cyrillic_characters texts)
  end.
  { apply iter_cyrillic_spec. split; [done|].
    exists test_fonts.ALPHABET. split; [set_solver|].
    apply list_elem_of_here. }
  rewrite Hempty in Hin. set_solver.
Qed.

(** C8. When the installer has run and the collection of required
    characters yields the empty set, the verifier's [main] fails the
    assertion [Did not detect any Cyrillic characters to verify.] right
    there: the world is the one the installer left, no font has been
    opened, and the success line is not printed. *)
Theorem empty_corpus_fails (w w1 : world) :
  install_fonts.main sha256_hexdigest REPO_ROOT [] w = (Ok 0%Z, w1) →
  (load_required_characters w1).1 = Ok ∅ →
  verifier_main w
  = (Raise (AssertionError
              (ustr "Did not detect any Cyrillic characters to verify.")),
     w1)
  ∧ ∃ evs, trace w1 = trace w ++ evs ∧ ∀ p, EvTTFont p ∉ evs.
Proof.
  intros Hinst Hload. split.
  - unfold test_fonts.main, mbind, M_bind. rewrite Hinst.
    destruct (load_required_characters w1) as [r w2] eqn:Hl.
    pose proof (load_required_characters_pure _ _ _ Hl) as ->.
    cbn in Hload. subst r. reflexivity.
  - destruct (main_cases sha256_hexdigest REPO_ROOT [] _ w _ _ eq_refl Hinst)
      as (w0 & evs0 & _ & _ & _ & _ & Ht0 & Hpre & _ & Hcases).
    destruct Hcases as [(e & [= ] & _)|(fb & r1 & _ & Hens & _ & _)].
    apply ensure_targets_spec in Hens
      as (_ & _ & evs & out & err & Ht & _ & _ & Hev & _).
    exists (evs0 ++ EvCall "ensure_targets" :: evs).
    split; [by rewrite Ht, Ht0, <- app_assoc|].
    intros p Hin. apply elem_of_app in Hin as [Hin|Hin].
    + rewrite Forall_forall in Hpre.
      destruct (Hpre _ Hin) as [?|[? ?]]; done.
    + apply elem_of_cons in Hin as [?|Hin]; [done|].
      rewrite Forall_forall in Hev. by apply Hev in Hin.
Qed.

(** *** Further properties of the glyph-coverage check *)

Local Abbreviation check_targets :=
  (test_fonts.check_targets sha256_hexdigest REPO_ROOT font TTFont getBestCmap).

(** X8. The collected set holds exactly the characters that occur in some
    text and that [unicodedata] names as Cyrillic: repetitions and the order
    of the texts do not matter, everything else is dropped. *)
Theorem cyrillic_characters_are_exactly_collected
    (strings : list pystr) (c : N) :
  c ∈ _iter_cyrillic_characters strings
  ↔ is_cyrillic c = true ∧ ∃ text, text ∈ strings ∧ c ∈ text.
Proof. apply iter_cyrillic_spec. Qed.

(** X9. Whenever the corpus can be loaded, the result holds every character
    of the alphabet literal that [unicodedata] names as Cyrillic, whatever
    the configuration files contain, and only characters named as Cyrillic;
    loading changes nothing in the world. *)
Theorem alphabet_is_always_required
    (w : world) (required : gset N) (w' : world) :
  load_required_characters w = (Ok required, w') →
  w' = w
  ∧ (∀ c, c ∈ test_fonts.ALPHABET → is_cyrillic c = true → c ∈ required)
  ∧ (∀ c, c ∈ required → is_cyrillic c = true).
Proof.
  intros Hload. split; [by eapply load_required_characters_pure|].
  revert Hload.
  unfold test_fonts.load_required_characters, test_fonts.load_json, mbind,
    M_bind, read_bytes, lift, mret, M_ret.
  repeat match goal with
         | |- context [match node_at ?d ?p with _ => _ end] =>
             destruct (node_at d p) as [[? [|]|]|]
         | |- context [json_load ?x] => destruct (json_load x)
         | |- context [test_fonts.settings_texts ?x] =>
             destruct (test_fonts.settings_texts x)
         | |- context [test_fonts.events_texts ?x] =>
             destruct (test_fonts.events_texts x)
         end; try (by intros [= ]).
  intros [= <- _]. split.
  - intros c Hc Hcyr. apply iter_cyrillic_spec. split; [done|].
    exists test_fonts.ALPHABET. split; [|done].
    rewrite !elem_of_app. do 3 right. apply list_elem_of_here.
  - intros c Hc. by apply iter_cyrillic_spec in Hc as [? _].
Qed.

Lemma elem_of_concat_iff {A} (x : A) (ls : list (list A)) :
  x ∈ concat ls ↔ ∃ l, l ∈ ls ∧ x ∈ l.
Proof.
  induction ls as [|l' ls IH]; cbn.
  - split; [intros H; inversion H|intros (l & H & _); inversion H].
  - rewrite elem_of_app, IH. split.
    + intros [?|(l & ? & ?)].
      * exists l'. split; [apply list_elem_of_here|done].
      * exists l. split; [by apply list_elem_of_further|done].
    + intros (l & Hl & ?). apply elem_of_cons in Hl as [->|?]; eauto.
Qed.

Lemma section_texts_spec (section : pyval) (s : pystr) :
  s ∈ test_fonts.section_texts section ↔ corpus_spec.in_section s section.
Proof.
  unfold corpus_spec.in_section. destruct section; cbn;
    try (split; [intros H; inversion H|intros [?|(? & ? & _)]; done]).
  - rewrite list_elem_of_singleton. split.
    + intros ->. by left.
    + intros [[= ->]|(? & ? & _)]; done.
  - rewrite list_elem_of_omap. split.
    + intros ([k v] & Hin & Hv). cbn in Hv. destruct v; try done.
      injection Hv as ->. right. eexists. split; [done|].
      apply list_elem_of_fmap. by exists (k, PyStr s).
    + intros [?|(its & [= <-] & Hin)]; [done|].
      apply list_elem_of_fmap in Hin as ([k v] & Hv & Hin). cbn in Hv.
      subst v. by exists (k, PyStr s).
Qed.

(** X10. For a configuration that is an object whose [settings] (an empty
    object when the key is missing) is an object, collecting the texts
    never fails, whatever the sections hold; a string is collected exactly
    when it is itself a section or a direct value of a section that is an
    object.  Numbers, booleans, nulls, lists and anything nested deeper are
    ignored. *)
Theorem settings_texts_one_level
    (items sections : list (pystr * pyval)) :
  dict_get (ustr "settings") items (PyDict []) = PyDict sections →
  ∃ texts,
    test_fonts.settings_texts (PyDict items) = Ok texts
    ∧ ∀ s, s ∈ texts
           ↔ ∃ section, section ∈ sections.*2
                        ∧ corpus_spec.in_section s section.
Proof.
  intros Hget. unfold test_fonts.settings_texts. rewrite Hget.
  eexists. split; [reflexivity|]. intros s.
  rewrite elem_of_concat_iff. split.
  - intros (l & Hl & Hs). apply list_elem_of_fmap in Hl as (section & -> & ?).
    exists section. split; [done|]. by apply section_texts_spec.
  - intros (section & ? & Hs). exists (test_fonts.section_texts section).
    split; [by apply list_elem_of_fmap_2|]. by apply section_texts_spec.
Qed.

Lemma event_names_spec (entries : list pyval) :
  test_fonts.event_names entries
  = match filter (λ e, corpus_spec.is_object e = false) entries with
    | bad :: _ => Raise (no_attribute bad "get")
    | [] => Ok (omap corpus_spec.event_name entries)
    end.
Proof.
  induction entries as [|entry rest IH]; [done|].
  cbn [test_fonts.event_names]. rewrite filter_cons.
  destruct entry; cbn [corpus_spec.is_object];
    try (rewrite decide_True by done; reflexivity).
  rewrite decide_False by done. rewrite IH.
  destruct (filter _ rest); [|done].
  cbn [omap list_omap corpus_spec.event_name].
  by destruct (dict_get (ustr "Name") items PyNone).
Qed.

(** X11. For an event file that is an object whose [eventList] is a list:
    the first entry that is not an object makes the collection fail with
    [AttributeError] ([... has no attribute 'get']); when all entries are
    objects, the names collected are the string-valued [Name] fields, in
    list order, and entries without [Name] or with another kind of [Name]
    are skipped. *)
Theorem event_names_collected
    (items : list (pystr * pyval)) (entries : list pyval) :
  dict_get (ustr "eventList") items (PyList []) = PyList entries →
  test_fonts.events_texts (PyDict items)
  = match filter (λ e, corpus_spec.is_object e = false) entries with
    | bad :: _ => Raise (no_attribute bad "get")
    | [] => Ok (omap corpus_spec.event_name entries)
    end.
Proof.
  intros Hget. unfold test_fonts.events_texts. rewrite Hget. cbn.
  apply event_names_spec.
Qed.


Lemma StronglySorted_le_lt (l : list N) :
  StronglySorted N.le l → NoDup l → StronglySorted N.lt l.
Proof.
  induction 1 as [|x l Hl IH Hx]; intros Hnd; [constructor|].
  apply NoDup_cons in Hnd as [Hnotin Hnd]. constructor; [by apply IH|].
  rewrite Forall_forall in Hx |- *. intros y Hy.
  specialize (Hx y Hy). assert (x ≠ y) by (by intros ->). lia.
Qed.

Lemma sorted_spec (chars : gset N) :
  StronglySorted N.lt (test_fonts.sorted chars)
  ∧ ∀ c, c ∈ test_fonts.sorted chars ↔ c ∈ chars.
Proof.
  unfold test_fonts.sorted. split.
  - apply StronglySorted_le_lt.
    + apply (StronglySorted_merge_sort _).
    + rewrite merge_sort_Permutation. apply NoDup_elements.
  - intros c. rewrite merge_sort_Permutation. apply elem_of_elements.
Qed.

Lemma verify_font_contains_run font_path data f required w :
  node_at (fs w) font_path = Some (File data true) →
  TTFont data = Some f →
  verify_font_contains font_path required w
  = (let missing := filter (λ char, default ∅ (getBestCmap f) !! char = None)
                      (test_fonts.sorted required) in
     if bool_decide (missing = []) then Ok tt
     else Raise (AssertionError
                   (ustr (str_path font_path
                          +:+ " is missing glyphs for: ") ++ missing)),
     log (EvTTFont font_path) w).
Proof.
  intros Hnode Hfont.
  unfold test_fonts.verify_font_contains, test_fonts.open_font, mbind,
    M_bind, emit, read_bytes, test_fonts.assert.
  cbn [fs log]. rewrite Hnode, Hfont. unfold mret, M_ret, raise.
  cbv zeta. by destruct (bool_decide _).
Qed.


Lemma log_all_frame evs w :
  fs (log_all evs w) = fs w
  ∧ upstream (log_all evs w) = upstream w
  ∧ stdout (log_all evs w) = stdout w
  ∧ stderr (log_all evs w) = stderr w
  ∧ snapshots (log_all evs w) = snapshots w
  ∧ trace (log_all evs w) = trace w ++ evs.
Proof.
  revert w. induction evs as [|e evs IH]; intros w.
  - by rewrite app_nil_r.
  - change (log_all (e :: evs) w) with (log_all evs (log e w)).
    destruct (IH (log e w)) as (-> & -> & -> & -> & -> & ->).
    cbn. by rewrite <- app_assoc.
Qed.

Lemma check_targets_ok ts required w :
  (∀ t, t ∈ ts →
     t ≠ []
     ∧ ∃ data f,
         fs w !! t = Some (File data true)
         ∧ sha256_hexdigest data = install_fonts.FONT_SHA256
         ∧ TTFont data = Some f
         ∧ ∀ c, c ∈ required → is_Some (default ∅ (getBestCmap f) !! c)) →
  check_targets ts required w = (Ok tt, log_all (EvTTFont <$> ts) w).
Proof.
  revert w. induction ts as [|t rest IH]; intros w Hall; [done|].
  destruct (Hall t) as (Hne & data & f & Hfile & Hsha & Hfont & Hcov);
    [apply list_elem_of_here|].
  assert (Hnode : node_at (fs w) t = Some (File data true))
    by (by destruct t).
  pose proof (verify_font_contains_run t data f required w Hnode Hfont)
    as Hverify.
  cbv zeta in Hverify.
  assert (Hnil : filter (λ char, default ∅ (getBestCmap f) !! char = None)
                   (test_fonts.sorted required) = []).
  { destruct (filter _ _) as [|c l] eqn:Hfilter; [done|].
    assert (Hin : c ∈ c :: l) by apply list_elem_of_here.
    rewrite <- Hfilter, list_elem_of_filter in Hin.
    destruct Hin as [Hnone Hc].
    apply (proj2 (sorted_spec required)) in Hc.
    destruct (Hcov c Hc) as [? ?]. congruence. }
  rewrite Hnil, bool_decide_eq_true_2 in Hverify by done.
  cbn [test_fonts.check_targets].
  unfold mbind, M_bind, path_exists, test_fonts.assert, read_bytes, mret,
    M_ret, raise, install_fonts.sha256_digest, test_fonts.FONT_SHA256.
  rewrite Hnode. rewrite (bool_decide_eq_true_2 (is_Some _)) by eauto.
  cbv beta iota. rewrite Hnode. cbv beta iota.
  rewrite (bool_decide_eq_true_2 (sha256_hexdigest data = _)) by done.
  cbv beta iota. rewrite Hverify.
  rewrite IH; [done|]. intros t' Ht'. cbn [fs log]. apply Hall.
  by apply list_elem_of_further.
Qed.

(** X13. When the installer returned 0, the collected set is not empty and
    every installed font can be opened and maps every required character,
    the verifier's [main] passes: the existence and digest assertions hold
    for every target, each target is opened once, in target order, the file
    system stays as the installer left it, and the last thing printed is
    [All fonts include the required Cyrillic glyphs.] *)
Theorem verifier_succeeds
    (w w1 : world) (required : gset N) :
  install_fonts.main sha256_hexdigest REPO_ROOT [] w = (Ok 0%Z, w1) →
  (load_required_characters w1).1 = Ok required →
  required ≠ ∅ →
  (∀ t data, t ∈ install_fonts.FONT_TARGETS →
     fs w1 !! t = Some (File data true) →
     ∃ f, TTFont data = Some f
          ∧ ∀ c, c ∈ required → is_Some (default ∅ (getBestCmap f) !! c)) →
  ∃ w2,
    verifier_main w = (Ok tt, w2)
    ∧ fs w2 = fs w1
    ∧ stdout w2
      = stdout w1 ++ ["All fonts include the required Cyrillic glyphs."]
    ∧ trace w2 = trace w1 ++ (EvTTFont <$> install_fonts.FONT_TARGETS).
Proof.
  intros Hinst Hload Hne Hfonts.
  pose proof (main_settles sha256_hexdigest REPO_ROOT [] _ w w1
                eq_refl eq_refl Hinst) as Hset.
  unfold test_fonts.main, mbind, M_bind. rewrite Hinst.
  destruct (load_required_characters w1) as [r w1'] eqn:Hl.
  pose proof (load_required_characters_pure _ _ _ Hl) as ->.
  cbn in Hload. subst r.
  rewrite bool_decide_eq_true_2 by done. cbn [test_fonts.assert].
  unfold mret, M_ret, test_fonts.FONT_TARGETS.
  rewrite check_targets_ok.
  - unfold print. eexists. split; [reflexivity|].
    destruct (log_all_frame (EvTTFont <$> install_fonts.FONT_TARGETS) w1)
      as (Hf & _ & Ho & _ & _ & Ht).
    cbn [fs stdout trace put_stdout]. by rewrite Hf, Ho, Ht.
  - intros t Ht. destruct (Hset t Ht) as [_ (data & Hfile & Hsha)].
    split; [by apply target_not_nil|].
    destruct (Hfonts t data Ht Hfile) as (f & Hfont & Hcov).
    exists data, f. done.
Qed.

End verifier_facts.


(** ** The theorems at concrete inputs *)

Ltac each_member H :=
  repeat (apply elem_of_cons in H as [->|H]);
  try (by apply elem_of_nil in H).

Ltac concrete_reachable :=
  let q := fresh "q" in
  let Hq := fresh "Hq" in
  intros q Hq; unfold ancestors in Hq; cbn in Hq; each_member Hq;
  vm_compute; auto.

Ltac concrete_writable :=
  split; [vm_compute; discriminate|vm_compute; eauto].

Lemma download_mismatch_is_fatal_witness :
  install_fonts.parse_args ["--force"]
    (example.world_of example.tree (UpstreamBody []))
  = (Ok example.forced, example.world_of example.tree (UpstreamBody []))
  ∧ example.digest [] ≠ install_fonts.FONT_SHA256
  ∧ ∃ w',
      install_fonts.main example.digest example.root ["--force"]
        (example.world_of example.tree (UpstreamBody []))
      = (Raise (report.mismatch_error example.digest []), w')
      ∧ fs w' = example.tree
      ∧ EvCall "ensure_targets" ∉ trace w'.
Proof.
  split; [reflexivity|]. split; [discriminate|].
  destruct (download_mismatch_is_fatal example.digest example.root
              ["--force"] example.forced
              (example.world_of example.tree (UpstreamBody [])) [])
    as (_ & w' & evs & Hmain & Hfs & _ & _ & Htr & _ & Hno);
    [reflexivity|by left|reflexivity|discriminate|].
  exists w'. split; [exact Hmain|]. split; [exact Hfs|].
  rewrite Htr. exact Hno.
Defined.

Lemma second_run_changes_nothing_witness :
  install_fonts.main example.digest example.root []
    (example.world_of example.tree (UpstreamBody example.font_data))
  = (Ok 0%Z,
     (install_fonts.main example.digest example.root []
        (example.world_of example.tree (UpstreamBody example.font_data))).2)
  ∧ ∃ w2,
      install_fonts.main example.digest example.root []
        (install_fonts.main example.digest example.root []
           (example.world_of example.tree
              (UpstreamBody example.font_data))).2
      = (Ok 0%Z, w2)
      ∧ fs w2
        = fs (install_fonts.main example.digest example.root []
                (example.world_of example.tree
                   (UpstreamBody example.font_data))).2
      ∧ fs w2 !! example.target1 = Some (File example.font_data true).
Proof.
  assert (Hfirst :
    install_fonts.main example.digest example.root []
      (example.world_of example.tree (UpstreamBody example.font_data))
    = (Ok 0%Z,
       (install_fonts.main example.digest example.root []
          (example.world_of example.tree (UpstreamBody example.font_data))).2))
    by (rewrite (surjective_pairing (install_fonts.main _ _ _ _)) at 1;
        f_equal; vm_compute; reflexivity).
  split; [exact Hfirst|].
  destruct (second_run_changes_nothing example.digest example.root [] []
              example.plain example.plain _ _ eq_refl eq_refl Hfirst
              eq_refl eq_refl)
    as (w2 & Hmain & Hfs & _).
  exists w2. split; [exact Hmain|]. split; [exact Hfs|].
  rewrite Hfs. vm_compute. reflexivity.
Defined.

Lemma dry_run_writes_nothing_witness :
  install_fonts.parse_args ["--dry-run"]
    (example.world_of ∅ (UpstreamBody example.font_data))
  = (Ok example.dry, example.world_of ∅ (UpstreamBody example.font_data))
  ∧ (∀ p c a,
       fs (install_fonts.main example.digest example.root ["--dry-run"]
             (example.world_of ∅ (UpstreamBody example.font_data))).2 !! p
       ≠ Some (File c a))
  ∧ "Would write font to /repo/OWML_fonts_patch/Fonts/NotoSans-Regular.ttf"
    ∈ stdout (install_fonts.main example.digest example.root ["--dry-run"]
                (example.world_of ∅ (UpstreamBody example.font_data))).2.
Proof.
  split; [reflexivity|].
  destruct (dry_run_writes_nothing example.digest example.root ["--dry-run"]
              example.dry
              (example.world_of ∅ (UpstreamBody example.font_data))
              (install_fonts.main example.digest example.root ["--dry-run"]
                 (example.world_of ∅ (UpstreamBody example.font_data))).1
              (install_fonts.main example.digest example.root ["--dry-run"]
                 (example.world_of ∅ (UpstreamBody example.font_data))).2)
    as (Hfiles & _ & _ & out & Hout & Hlines);
    [reflexivity|reflexivity|apply surjective_pairing|].
  split.
  - intros p c a H. apply Hfiles in H. cbn in H.
    rewrite lookup_empty in H. discriminate.
  - rewrite Hout. apply elem_of_app. right.
    apply (Hlines eq_refl example.target1); [apply list_elem_of_here|].
    reflexivity.
Defined.



Lemma target_never_partially_written_witness :
  (∀ s, s ∈ snapshots
          (install_fonts.ensure_targets example.digest example.root
             example.font_data false false
             (example.world_of example.first_unreadable
                (UpstreamBody example.font_data))).2 →
     s !! example.target1 = Some (File example.old_data false)
     ∨ s !! example.target1 = Some (File example.font_data true))
  ∧ (snapshots
       (install_fonts.ensure_targets example.digest example.root
          example.font_data false false
          (example.world_of example.first_unreadable
             (UpstreamBody example.font_data))).2 !! 2%nat
     ≫= λ s, s !! with_tmp_suffix example.target1)
    = Some (File [Byte.x00; Byte.x01] true)
  ∧ (snapshots
       (install_fonts.ensure_targets example.digest example.root
          example.font_data false false
          (example.world_of example.first_unreadable
             (UpstreamBody example.font_data))).2 !! 2%nat
     ≫= λ s, s !! example.target1)
    = Some (File example.old_data false).
Proof.
  split.
  - destruct (target_never_partially_written example.digest example.root
                example.font_data false false
                (example.world_of example.first_unreadable
                   (UpstreamBody example.font_data))
                _ _ (surjective_pairing _))
      as ((news & Hs & Hn) & _).
    intros s Hin. rewrite Hs in Hin. cbn in Hin.
    destruct (Hn s example.target1 Hin (list_elem_of_here _ _)) as [H|H].
    + left. rewrite H. reflexivity.
    + by right.
  - split; vm_compute; reflexivity.
Defined.

Lemma missing_glyph_is_named_witness :
  example.two_glyphs !! 1103%N = None
  ∧ test_fonts.verify_font_contains example.root unit example.open_any
      example.cmap_of example.target1 {[1040%N; 1041%N; 1103%N]}
      (example.world_of (example.with_fonts example.font_data)
         (UpstreamBody example.font_data))
    = (Raise (AssertionError
                (ustr ("/repo/OWML_fonts_patch/Fonts/NotoSans-Regular.ttf"
                       +:+ " is missing glyphs for: ") ++ [1103%N])),
       log (EvTTFont example.target1)
         (example.world_of (example.with_fonts example.font_data)
            (UpstreamBody example.font_data))).
Proof.
  split; [reflexivity|].
  apply (missing_glyph_is_named example.root unit example.open_any
           example.cmap_of example.target1 example.font_data tt
           example.two_glyphs).
  - reflexivity.
  - reflexivity.
  - reflexivity.
  - by eexists.
  - by eexists.
  - reflexivity.
Defined.

Lemma empty_corpus_fails_witness :
  (test_fonts.load_required_characters example.no_names example.empty_object
     (install_fonts.main example.digest example.root []
        (example.world_of (example.with_fonts example.font_data)
           (UpstreamBody example.font_data))).2).1 = Ok ∅
  ∧ (test_fonts.main example.digest example.root example.no_names
       example.empty_object unit example.open_any example.cmap_of
       (example.world_of (example.with_fonts example.font_data)
          (UpstreamBody example.font_data))).1
    = Raise (AssertionError
               (ustr "Did not detect any Cyrillic characters to verify.")).
Proof.
  assert (Hload :
    (test_fonts.load_required_characters example.no_names example.empty_object
       (install_fonts.main example.digest example.root []
          (example.world_of (example.with_fonts example.font_data)
             (UpstreamBody example.font_data))).2).1 = Ok ∅)
    by (vm_compute; reflexivity).
  split; [exact Hload|].
  destruct (empty_corpus_fails example.digest example.root example.no_names
              example.empty_object unit example.open_any example.cmap_of
              (example.world_of (example.with_fonts example.font_data)
                 (UpstreamBody example.font_data))
              (install_fonts.main example.digest example.root []
                 (example.world_of (example.with_fonts example.font_data)
                    (UpstreamBody example.font_data))).2)
    as [Hmain _];
    [rewrite (surjective_pairing (install_fonts.main _ _ _ _)) at 1;
     f_equal; vm_compute; reflexivity|exact Hload|].
  rewrite Hmain. reflexivity.
Defined.


Lemma unreadable_target_is_rewritten_witness :
  example.first_unreadable !! example.target1
  = Some (File example.old_data false)
  ∧ ∃ w',
      install_fonts.ensure_targets example.digest example.root
        example.font_data false false
        (example.world_of example.first_unreadable
           (UpstreamBody example.font_data))
      = (Ok tt, w')
      ∧ fs w' !! example.target1 = Some (File example.font_data true)
      ∧ stderr w'
        = ["Warning: could not read /repo/OWML_fonts_patch/Fonts/NotoSans-Regular.ttf: [Errno 13] Permission denied: '/repo/OWML_fonts_patch/Fonts/NotoSans-Regular.ttf'"].
Proof.
  split; [reflexivity|].
  destruct (unreadable_target_is_rewritten example.digest example.root
              example.font_data false
              (example.world_of example.first_unreadable
                 (UpstreamBody example.font_data))
              example.target1 example.old_data)
    as (w' & evs & Hrun & _ & _ & Herr & _ & _ & Hfs & _).
  - apply list_elem_of_here.
  - reflexivity.
  - intros t Ht. each_member Ht; concrete_reachable.
  - intros _ t Ht. each_member Ht; concrete_writable.
  - exists w'. split; [exact Hrun|]. split; [exact Hfs|].
    rewrite Herr. vm_compute. reflexivity.
Defined.

Lemma fetch_failure_is_fatal_witness :
  ∃ w',
    install_fonts.main example.digest example.root ["--force"]
      (example.world_of example.tree (UpstreamURLError "<urlopen error timed out>"))
    = (Raise (RuntimeError
                ("Failed to download " +:+ install_fonts.FONT_URL
                 +:+ ": <urlopen error timed out>")), w')
    ∧ fs w' = example.tree.
Proof.
  destruct (fetch_failure_is_fatal example.digest example.root ["--force"]
              example.forced
              (example.world_of example.tree
                 (UpstreamURLError "<urlopen error timed out>"))
              "<urlopen error timed out>")
    as (w' & evs & Hmain & Hfs & _); [reflexivity|by left|reflexivity|].
  exists w'. split; [exact Hmain|exact Hfs].
Defined.

Lemma completed_run_settles_targets_witness :
  (∃ c, fs (install_fonts.main example.digest example.root []
              (example.world_of example.tree
                 (UpstreamBody example.font_data))).2 !! example.target3
        = Some (File c true)
        ∧ example.digest c = install_fonts.FONT_SHA256)
  ∧ fs (install_fonts.main example.digest example.root []
          (example.world_of example.tree
             (UpstreamBody example.font_data))).2 !! parent example.target3
    = Some Dir.
Proof.
  destruct (completed_run_settles_targets example.digest example.root []
              example.plain
              (example.world_of example.tree (UpstreamBody example.font_data))
              (install_fonts.main example.digest example.root []
                 (example.world_of example.tree
                    (UpstreamBody example.font_data))).2
              eq_refl eq_refl) with (t := example.target3)
    as (Hfile & Hparent & _).
  - rewrite (surjective_pairing (install_fonts.main _ _ _ _)) at 1.
    f_equal; vm_compute; reflexivity.
  - do 2 apply list_elem_of_further. apply list_elem_of_here.
  - split; [exact Hfile|exact Hparent].
Defined.

Lemma cache_miss_installs_download_witness :
  probe_spec.first_valid example.digest example.tree
    install_fonts.FONT_TARGETS = None
  ∧ ∃ w',
      install_fonts.main example.digest example.root []
        (example.world_of example.tree (UpstreamBody example.font_data))
      = (Ok 0%Z, w')
      ∧ fs w' !! example.target1 = Some (File example.font_data true)
      ∧ fs w' !! example.target2 = Some (File example.font_data true)
      ∧ fs w' !! example.target3 = Some (File example.font_data true).
Proof.
  split; [reflexivity|].
  destruct (cache_miss_installs_download example.digest example.root []
              example.plain
              (example.world_of example.tree (UpstreamBody example.font_data))
              example.font_data)
    as (w' & evs & out & Hmain & _ & _ & _ & Hall);
    [reflexivity|reflexivity|reflexivity|reflexivity|reflexivity|reflexivity| |].
  - intros t Ht. each_member Ht; (split; [concrete_reachable|concrete_writable]).
  - exists w'. split; [exact Hmain|]. split; [|split].
    + apply (Hall example.target1). apply list_elem_of_here.
    + apply (Hall example.target2).
      apply list_elem_of_further, list_elem_of_here.
    + apply (Hall example.target3).
      do 2 apply list_elem_of_further. apply list_elem_of_here.
Defined.

Lemma cached_copy_repairs_offline_witness :
  probe_spec.first_valid example.digest example.one_valid
    install_fonts.FONT_TARGETS = Some example.font_data
  ∧ ∃ w',
      install_fonts.main example.digest example.root []
        (example.world_of example.one_valid (UpstreamURLError "offline"))
      = (Ok 0%Z, w')
      ∧ (EvUrlopen ∉ trace w')
      ∧ fs w' !! example.target1 = Some (File example.font_data true)
      ∧ fs w' !! example.target2 = example.one_valid !! example.target2
      ∧ fs w' !! example.target3 = Some (File example.font_data true).
Proof.
  split; [reflexivity|].
  destruct (cached_copy_repairs_offline example.digest example.root []
              example.plain
              (example.world_of example.one_valid (UpstreamURLError "offline"))
              example.font_data)
    as (w' & evs & Hmain & Htr & Hno & Hall);
    [reflexivity|reflexivity|reflexivity|reflexivity| |].
  - intros t Ht. each_member Ht; (split; [concrete_reachable|concrete_writable]).
  - exists w'. split; [exact Hmain|]. split; [rewrite Htr; exact Hno|].
    split; [|split].
    + destruct (Hall example.target1) as [_ H]; [apply list_elem_of_here|].
      apply H. reflexivity.
    + destruct (Hall example.target2) as [H _];
        [apply list_elem_of_further, list_elem_of_here|].
      apply H. by eexists.
    + destruct (Hall example.target3) as [_ H];
        [do 2 apply list_elem_of_further; apply list_elem_of_here|].
      apply H. reflexivity.
Defined.


Lemma alphabet_is_always_required_witness :
  (test_fonts.load_required_characters example.cyrillic_block
     example.empty_object
     (example.world_of example.tree (UpstreamBody example.font_data))).1
  = Ok example.alphabet_set
  ∧ 1103%N ∈ example.alphabet_set
  ∧ 1025%N ∈ example.alphabet_set.
Proof.
  assert (Hload :
    (test_fonts.load_required_characters example.cyrillic_block
       example.empty_object
       (example.world_of example.tree (UpstreamBody example.font_data))).1
    = Ok example.alphabet_set) by (vm_compute; reflexivity).
  split; [exact Hload|].
  destruct (alphabet_is_always_required example.cyrillic_block
              example.empty_object
              (example.world_of example.tree (UpstreamBody example.font_data))
              example.alphabet_set
              (test_fonts.load_required_characters example.cyrillic_block
                 example.empty_object
                 (example.world_of example.tree
                    (UpstreamBody example.font_data))).2)
    as (_ & Hin & _).
  - rewrite (surjective_pairing (test_fonts.load_required_characters _ _ _))
      at 1.
    by rewrite Hload.
  - split; apply Hin; try reflexivity.
    + apply (bool_decide_unpack _). by vm_compute.
    + apply (bool_decide_unpack _). by vm_compute.
Defined.

Lemma settings_texts_one_level_witness :
  ∃ texts,
    test_fonts.settings_texts (PyDict example.config_items) = Ok texts
    ∧ [1040%N; 1041%N] ∈ texts
    ∧ [1042%N] ∈ texts.
Proof.
  destruct (settings_texts_one_level example.config_items _ eq_refl)
    as (texts & Heq & Hiff).
  exists texts. split; [exact Heq|]. split; apply Hiff.
  - eexists. split; [apply list_elem_of_here|]. left. reflexivity.
  - eexists. split; [apply list_elem_of_further, list_elem_of_here|].
    right. eexists. split; [reflexivity|]. apply list_elem_of_here.
Defined.

Lemma event_names_collected_witness :
  test_fonts.events_texts (PyDict example.event_items) = Ok [[1071%N]].
Proof.
  rewrite (event_names_collected example.event_items example.event_entries
             eq_refl).
  reflexivity.
Defined.


Lemma verifier_succeeds_witness :
  example.alphabet_set ≠ ∅
  ∧ ∃ w2,
      test_fonts.main example.digest example.root example.cyrillic_block
        example.empty_object unit example.open_any example.full_cmap_of
        (example.world_of example.tree (UpstreamBody example.font_data))
      = (Ok tt, w2)
      ∧ stdout w2
        = stdout (install_fonts.main example.digest example.root []
                    (example.world_of example.tree
                       (UpstreamBody example.font_data))).2
          ++ ["All fonts include the required Cyrillic glyphs."].
Proof.
  assert (Hne : example.alphabet_set ≠ ∅).
  { apply (bool_decide_unpack _). by vm_compute. }
  split; [exact Hne|].
  destruct (verifier_succeeds example.digest example.root
              example.cyrillic_block example.empty_object unit
              example.open_any example.full_cmap_of
              (example.world_of example.tree (UpstreamBody example.font_data))
              (install_fonts.main example.digest example.root []
                 (example.world_of example.tree
                    (UpstreamBody example.font_data))).2
              example.alphabet_set)
    as (w2 & Hmain & _ & Hout & _).
  - rewrite (surjective_pairing (install_fonts.main _ _ _ _)) at 1.
    f_equal; vm_compute; reflexivity.
  - vm_compute. reflexivity.
  - exact Hne.
  - intros t data _ _. exists tt. split; [reflexivity|].
    intros c Hc. apply elem_of_elements in Hc. revert c Hc.
    apply Forall_forall. apply (bool_decide_unpack _). by vm_compute.
  - exists w2. split; [exact Hmain|exact Hout].
Defined.
